(** * Elsewedy customers chatbot: a retrieval-augmented question answering
      pipeline (document loading, Chroma vector store, LangChain chain,
      Streamlit front end), embedded as executable Rocq definitions.

    The program is glue around external collaborators (file loaders, the
    text splitter, the Chroma client, the embedding model, the Ollama
    client).  Each collaborator is an oracle of the environment [Env];
    everything the repository's own code decides (dispatch on the file
    extension, the try/except structure, the order of the initialisation
    steps, the memoised set-up, the chat handler) is written out.  Calls
    that only print or draw on the page are left out, the lines that the
    command line loop prints apart; the chat history kept in
    [st.session_state] is part of the state. *)

From stdpp Require Import base option list strings gmap.
From Stdlib Require Import Ascii.

(* ===================================================================== *)
(** ** Python values and primitives                                        *)
(* ===================================================================== *)

Module Py.

(** A Python call either returns or raises an [Exception]; the payload of
    [Raise] is [str(e)], the only part of an exception the program reads. *)
Inductive result (A : Type) : Type :=
| Ok (a : A)
| Raise (e : string).
Arguments Ok {A} a.
Arguments Raise {A} e.

Definition newline : string := String "010"%char EmptyString.

(** [s.endswith(suffix)] *)
Definition endswith (s suffix : string) : bool :=
  let n := String.length s in
  let m := String.length suffix in
  (m <=? n) && String.eqb (String.substring (n - m) m s) suffix.

(** [s.startswith(prefix)] *)
Definition startswith (s prefix : string) : bool := String.prefix prefix s.

(** [os.path.join(a, b)] on a POSIX system. *)
Definition os_path_join (a b : string) : string :=
  if startswith b "/" then b
  else if String.eqb a EmptyString || endswith a "/" then a +:+ b
  else a +:+ "/" +:+ b.

(** [sep.join(items)]: the separator goes between consecutive items. *)
Definition str_join (sep : string) (items : list string) : string :=
  String.concat sep items.

(** Truthiness of a list: [if documents:]. *)
Definition truthy {A} (l : list A) : bool :=
  match l with [] => false | _ :: _ => true end.

(** *** [str.format]-style templates

    A template is scanned once, left to right: [{{] and [}}] are escaped
    braces, [{name}] is a replacement field, anything else is literal
    text.  Values are inserted without being scanned again. *)
Inductive segment : Type :=
| Lit (c : ascii)
| Field (name : string).

(** Where the scanner is: in literal text, just after an opening brace,
    inside a field name, or just after a closing brace met in text. *)
Inductive scan_state : Type :=
| InText
| AfterOpen
| InField (name : string)
| AfterClose.

Fixpoint scan (st : scan_state) (s : string) : option (list segment) :=
  match s with
  | EmptyString =>
      match st with
      | InText => Some []
      | _ => None
      end
  | String c rest =>
      match st with
      | InText =>
          if Ascii.eqb c "{"%char then scan AfterOpen rest
          else if Ascii.eqb c "}"%char then scan AfterClose rest
          else cons (Lit c) <$> scan InText rest
      | AfterOpen =>
          if Ascii.eqb c "{"%char then cons (Lit c) <$> scan InText rest
          else if Ascii.eqb c "}"%char
               then cons (Field EmptyString) <$> scan InText rest
          else scan (InField (String c EmptyString)) rest
      | InField name =>
          if Ascii.eqb c "}"%char then cons (Field name) <$> scan InText rest
          else scan (InField (name +:+ String c EmptyString)) rest
      | AfterClose =>
          if Ascii.eqb c "}"%char then cons (Lit c) <$> scan InText rest
          else None
      end
  end.

Definition parse_template (template : string) : option (list segment) :=
  scan InText template.

Fixpoint lookup_kw (kwargs : list (string * string)) (name : string)
  : option string :=
  match kwargs with
  | [] => None
  | (k, v) :: rest => if String.eqb k name then Some v else lookup_kw rest name
  end.

Fixpoint render (segs : list segment) (kwargs : list (string * string))
  : option string :=
  match segs with
  | [] => Some EmptyString
  | Lit c :: segs' => String c <$> render segs' kwargs
  | Field name :: segs' =>
      match lookup_kw kwargs name, render segs' kwargs with
      | Some v, Some tail => Some (v +:+ tail)
      | _, _ => None
      end
  end.

(** [template.format(context=..., question=...)]; a malformed template or
    a missing key raises. *)
Definition format (template : string) (kwargs : list (string * string))
  : result string :=
  match parse_template template with
  | None => Raise "ValueError"
  | Some segs =>
      match render segs kwargs with
      | Some s => Ok s
      | None => Raise "KeyError"
      end
  end.

End Py.
Export Py.

(* ===================================================================== *)
(** ** config.py                                                           *)
(* ===================================================================== *)

Module config.

Definition CHROMA_COLLECTION_NAME : string := "product_info_collection".
Definition EMBEDDING_MODEL_NAME : string := "all-MiniLM-L6-v2".
Definition OLLAMA_BASE_URL : string := "http://localhost:11434".
Definition OLLAMA_MODEL_NAME : string := "tinyllama".
Definition CHUNK_SIZE : nat := 500.
Definition CHUNK_OVERLAP : nat := 200.
Definition TOP_K_RETRIEVAL : nat := 5.

Definition RAG_PROMPT_TEMPLATE : string := "
You are a helpful assistant providing information about company products.
Answer the following question based ONLY on the provided context.
If the answer is not in the context, state that you don't have enough information.
Keep your answer concise and to the point.

Context:
{context}

Question: {question}

Answer:
".

(** The paths are computed from the place of [config.py] on disk; the
    project root is a parameter of the deployment. *)
Definition DATA_DIR (PROJECT_ROOT : string) : string :=
  os_path_join PROJECT_ROOT "data".
Definition PRODUCT_DOCS_DIR (PROJECT_ROOT : string) : string :=
  os_path_join (DATA_DIR PROJECT_ROOT) "product_docs".
Definition VECTOR_STORE_DIR (PROJECT_ROOT : string) : string :=
  os_path_join PROJECT_ROOT "vector_store".
Definition CHROMA_DB_PATH (PROJECT_ROOT : string) : string :=
  os_path_join (VECTOR_STORE_DIR PROJECT_ROOT) "chroma_db".

End config.
Export config.

(* ===================================================================== *)
(** ** Data model and external collaborators                               *)
(* ===================================================================== *)

(** [langchain_core.documents.Document] *)
Record Document : Type := mkDocument {
  page_content : string;
  metadata : list (string * string)
}.

(** The three loaders the program constructs, with their arguments.  A
    constructor records the path and may already raise (the PDF loader
    refuses a path that is not a file); the file is read by [load]. *)
Inductive Loader : Type :=
| PyPDFLoader (file_path : string)
| TextLoader (file_path : string) (encoding : string)
| UnstructuredMarkdownLoader (file_path : string).

(** [HuggingFaceEmbeddings(model_name, model_kwargs, encode_kwargs)] *)
Record Embeddings : Type := mkEmbeddings {
  model_name : string;
  device : string;
  normalize_embeddings : bool
}.

(** A handle on a Chroma collection. *)
Record Chroma : Type := mkChroma {
  persist_directory : string;
  embedding_function : Embeddings;
  collection_name : string
}.

(** [vector_store.as_retriever(search_kwargs={"k": k})] *)
Record Retriever : Type := mkRetriever {
  retriever_store : Chroma;
  retriever_k : nat
}.

(** [Ollama(base_url, model)] *)
Record Ollama : Type := mkOllama {
  base_url : string;
  model : string
}.

(** The persisted vector index: persist directory, then collection name,
    then the payloads of the records in insertion order.  Record ids are
    assigned by the library at each insertion and never read by the
    program, so a record is represented by its payload.  The directories
    of the file system that hold no collection are not part of it. *)
Abbreviation Disk := (gmap string (gmap string (list Document))).

(** Places where the program calls into a library that may raise. *)
Inductive Site : Type :=
| SiteHuggingFaceEmbeddings      (* embedding_model.py, HuggingFaceEmbeddings(...) *)
| SiteChroma                     (* vector_db_manager.py, Chroma(...) in get_or_create *)
| SiteAddDocuments               (* vector_store.add_documents(documents) *)
| SiteFromDocuments              (* Chroma.from_documents inside the try *)
| SiteFromDocumentsFallback      (* Chroma.from_documents inside the except *)
| SiteRetrieverChroma            (* Chroma(...) in get_vector_store_retriever *)
| SiteOllama                     (* rag_chain.py, Ollama(...) *)
| SiteLoader (loader : Loader).  (* data_processor.py, the loader constructors *)

(** What the outside world does in one run of the program. *)
Record Env : Type := mkEnv {
  PROJECT_ROOT : string;
  (* os.walk(directory): (root, dirs, files) triples, top down *)
  os_walk : string -> list (string * list string * list string);
  (* loader.load() *)
  loader_load : Loader -> result (list Document);
  (* RecursiveCharacterTextSplitter(chunk_size, chunk_overlap).split_documents *)
  split_documents_with : nat -> nat -> list Document -> list Document;
  (* the library call at a site raises [e] when [fault site = Some e] *)
  fault : Site -> option string;
  (* the retriever's nearest-neighbour search over a collection *)
  similarity_search : list Document -> string -> nat -> result (list Document);
  (* the model endpoint, blocking and incremental; the incremental call
     yields fragments and may raise after them *)
  llm_invoke : Ollama -> string -> result string;
  llm_stream : Ollama -> string -> list string * option string
}.

(** Calls into the libraries, as they are observed from outside. *)
Inductive Event : Type :=
| EvHuggingFaceEmbeddings (name : string)
| EvWalk (directory : string)
| EvLoad (loader : Loader)
| EvSplit (n_documents : nat)
| EvMakedirs (path : string)
| EvRmtree (path : string)
| EvChroma (path collection : string)
| EvAddDocuments (documents : list Document)
| EvFromDocuments (documents : list Document)
| EvAsRetriever (k : nat)
| EvOllama (url name : string)
| EvSearch (query : string) (k : nat)
| EvLlm (prompt : string).

(* ===================================================================== *)
(** ** Computations: disk state, exceptions, trace                         *)
(* ===================================================================== *)

Record outcome (A : Type) : Type := mkOutcome {
  res : result A;
  disk_after : Disk;
  trace : list Event
}.
Arguments mkOutcome {A} res disk_after trace.
Arguments res {A} o.
Arguments disk_after {A} o.
Arguments trace {A} o.

Definition M (A : Type) : Type := Disk -> outcome A.

Definition ret {A} (a : A) : M A := fun d => mkOutcome (Ok a) d [].

Definition raise {A} (e : string) : M A := fun d => mkOutcome (Raise e) d [].

Definition bind {A B} (m : M A) (f : A -> M B) : M B := fun d =>
  let o := m d in
  match res o with
  | Ok a =>
      let o' := f a (disk_after o) in
      mkOutcome (res o') (disk_after o') (trace o ++ trace o')
  | Raise e => mkOutcome (Raise e) (disk_after o) (trace o)
  end.

(** [try: m  except Exception as e: h e] *)
Definition try_except {A} (m : M A) (h : string -> M A) : M A := fun d =>
  let o := m d in
  match res o with
  | Ok a => o
  | Raise e =>
      let o' := h e (disk_after o) in
      mkOutcome (res o') (disk_after o') (trace o ++ trace o')
  end.

Definition emit (ev : Event) : M unit := fun d => mkOutcome (Ok tt) d [ev].

Definition get_disk : M Disk := fun d => mkOutcome (Ok d) d [].

Definition modify_disk (f : Disk -> Disk) : M unit := fun d =>
  mkOutcome (Ok tt) (f d) [].

(** A library call that raises when the environment says so. *)
Definition may_fault (E : Env) (s : Site) : M unit :=
  match fault E s with
  | Some e => raise e
  | None => ret tt
  end.

Definition lift_result {A} (r : result A) : M A :=
  match r with
  | Ok a => ret a
  | Raise e => raise e
  end.

Declare Scope py_scope.
Delimit Scope py_scope with py.
Notation "'let*' x := m 'in' k" := (bind m (fun x => k))
  (at level 10, x name, m at level 100, k at level 200,
   format "'[v' 'let*'  x  :=  m  'in' '/' k ']'") : py_scope.
Open Scope py_scope.

(** [for x in xs: acc = body acc x] *)
Fixpoint for_each {A S} (xs : list A) (body : S -> A -> M S) (acc : S) : M S :=
  match xs with
  | [] => ret acc
  | x :: xs' => let* acc' := body acc x in for_each xs' body acc'
  end.

(* ===================================================================== *)
(** ** data_processor.py                                                   *)
(* ===================================================================== *)

(** The [if / elif / else: continue] chain of [load_documents]. *)
Definition select_loader (file_name file_path : string) : option Loader :=
  if endswith file_name ".pdf" then Some (PyPDFLoader file_path)
  else if endswith file_name ".txt" then Some (TextLoader file_path "utf-8")
  else if endswith file_name ".md" || endswith file_name ".markdown"
       then Some (UnstructuredMarkdownLoader file_path)
  else None.

Definition load (E : Env) (loader : Loader) : M (list Document) :=
  let* _ := emit (EvLoad loader) in
  lift_result (loader_load E loader).

(** The body of the inner loop, for one file name.  The loader is
    constructed in the [if / elif] chain, before the [try]; only
    [loader.load()] is inside it. *)
Definition load_file (E : Env) (root : string)
    (documents : list Document) (file_name : string) : M (list Document) :=
  let file_path := os_path_join root file_name in
  match select_loader file_name file_path with
  | None => ret documents
  | Some loader =>
      let* _ := may_fault E (SiteLoader loader) in
      try_except
        (let* loaded := load E loader in ret (documents ++ loaded))
        (fun _ => ret documents)
  end.

(** The body of the outer loop, for one [(root, dirs, files)] of the walk. *)
Definition load_entry (E : Env) (documents : list Document)
    (entry : string * list string * list string) : M (list Document) :=
  let '(root, _, files) := entry in
  for_each files (load_file E root) documents.

Definition load_documents (E : Env) (directory : string) : M (list Document) :=
  let* _ := emit (EvWalk directory) in
  for_each (os_walk E directory) (load_entry E) [].

Definition split_documents (E : Env) (documents : list Document)
  : M (list Document) :=
  let* _ := emit (EvSplit (length documents)) in
  ret (split_documents_with E CHUNK_SIZE CHUNK_OVERLAP documents).

Definition get_processed_documents (E : Env) : M (list Document) :=
  let* raw_documents := load_documents E (PRODUCT_DOCS_DIR (PROJECT_ROOT E)) in
  if negb (truthy raw_documents) then ret []
  else
    let* processed_chunks := split_documents E raw_documents in
    ret processed_chunks.

(* ===================================================================== *)
(** ** embedding_model.py                                                  *)
(* ===================================================================== *)

Definition HuggingFaceEmbeddings (E : Env) (name device : string)
    (normalize : bool) : M Embeddings :=
  let* _ := emit (EvHuggingFaceEmbeddings name) in
  let* _ := may_fault E SiteHuggingFaceEmbeddings in
  ret (mkEmbeddings name device normalize).

Definition get_embedding_model (E : Env) : M (option Embeddings) :=
  try_except
    (let* embeddings := HuggingFaceEmbeddings E EMBEDDING_MODEL_NAME "cpu" false in
     ret (Some embeddings))
    (fun _ => ret None).

(* ===================================================================== *)
(** ** vector_db_manager.py                                                *)
(* ===================================================================== *)

(** The records of a collection; a missing directory or collection has
    none. *)
Definition collection_of (d : Disk) (path name : string) : list Document :=
  default [] (d !! path ≫= λ collections, collections !! name).

Definition set_collection (d : Disk) (path name : string)
    (records : list Document) : Disk :=
  <[path := <[name := records]> (default ∅ (d !! path))]> d.

(** [os.makedirs(path, exist_ok=True)]: afterwards [path] is a directory,
    empty when it was not there.  The directories made above it hold no
    collection, and the call is taken to return. *)
Definition os_makedirs (path : string) : M unit :=
  let* _ := emit (EvMakedirs path) in
  modify_disk (fun d =>
    match d !! path with
    | Some _ => d
    | None => <[path := ∅]> d
    end).

(** [os.path.exists(path)] *)
Definition os_path_exists (path : string) : M bool :=
  let* d := get_disk in
  ret (bool_decide (is_Some (d !! path))).

(** A path without its trailing separators. *)
Fixpoint rstrip_sep (path : string) : string :=
  match path with
  | EmptyString => EmptyString
  | String c rest =>
      match rstrip_sep rest with
      | EmptyString =>
          if Ascii.eqb c "/"%char then EmptyString else String c EmptyString
      | kept => String c kept
      end
  end.

(** Whether [path] names the directory [top] or a place beneath it; paths
    are compared as they are written, trailing separators apart. *)
Definition beneath (top path : string) : bool :=
  String.eqb (rstrip_sep path) (rstrip_sep top)
  || startswith path (rstrip_sep top +:+ "/").

(** The disk without the tree rooted at [top]. *)
Definition without_tree (top : string) (d : Disk) : Disk :=
  filter (fun entry : string * gmap string (list Document) =>
            beneath top entry.1 = false) d.

(** [shutil.rmtree(path)]: the directory goes with everything beneath it.
    The call is taken to return. *)
Definition shutil_rmtree (path : string) : M unit :=
  let* _ := emit (EvRmtree path) in
  modify_disk (without_tree path).

(** [Chroma(persist_directory, embedding_function, collection_name)]: opens
    the collection, creating it empty when it is not there yet. *)
Definition Chroma_open (E : Env) (site : Site) (path : string)
    (embedding : Embeddings) (name : string) : M Chroma :=
  let* _ := emit (EvChroma path name) in
  let* _ := may_fault E site in
  let* _ := modify_disk (fun d =>
              set_collection d path name (collection_of d path name)) in
  ret (mkChroma path embedding name).

(** [vector_store.add_documents(documents)]: one new record per document,
    whatever the collection already holds. *)
Definition add_documents (E : Env) (vector_store : Chroma)
    (documents : list Document) : M unit :=
  let* _ := emit (EvAddDocuments documents) in
  let* _ := may_fault E SiteAddDocuments in
  let path := persist_directory vector_store in
  let name := collection_name vector_store in
  modify_disk (fun d =>
    set_collection d path name (collection_of d path name ++ documents)).

(** [Chroma.from_documents(documents, embedding, persist_directory,
    collection_name)]: opens (or creates) the collection and adds the
    documents to it. *)
Definition Chroma_from_documents (E : Env) (site : Site)
    (documents : list Document) (embedding : Embeddings)
    (path name : string) : M Chroma :=
  let* _ := emit (EvFromDocuments documents) in
  let* _ := may_fault E site in
  let* _ := modify_disk (fun d =>
              set_collection d path name (collection_of d path name ++ documents)) in
  ret (mkChroma path embedding name).

Definition get_or_create_vector_store (E : Env)
    (documents : list Document) (embedding_model : Embeddings)
    (persist_directory collection_name : string) (force_recreate : bool)
  : M (option Chroma) :=
  let* _ := os_makedirs persist_directory in
  let* recreate :=
    if force_recreate then os_path_exists persist_directory else ret false in
  let* _ :=
    if recreate then
      let* _ := shutil_rmtree persist_directory in
      os_makedirs persist_directory
    else ret tt in
  try_except
    (let* vector_store :=
       Chroma_open E SiteChroma persist_directory embedding_model collection_name in
     if negb force_recreate && truthy documents then
       let* _ :=
         if truthy documents then add_documents E vector_store documents
         else ret tt in
       ret (Some vector_store)
     else if truthy documents then
       let* vector_store :=
         Chroma_from_documents E SiteFromDocuments documents embedding_model
           persist_directory collection_name in
       ret (Some vector_store)
     else ret (Some vector_store))
    (fun _ =>
       if truthy documents then
         let* vector_store :=
           Chroma_from_documents E SiteFromDocumentsFallback documents
             embedding_model persist_directory collection_name in
         ret (Some vector_store)
       else ret None).

Definition as_retriever (vector_store : Chroma) (k : nat) : M Retriever :=
  let* _ := emit (EvAsRetriever k) in
  ret (mkRetriever vector_store k).

Definition get_vector_store_retriever (E : Env) (embedding_model : Embeddings)
    (persist_directory collection_name : string) (k : nat)
  : M (option Retriever) :=
  try_except
    (let* vector_store :=
       Chroma_open E SiteRetrieverChroma persist_directory embedding_model
         collection_name in
     let* retriever := as_retriever vector_store k in
     ret (Some retriever))
    (fun _ => ret None).

(* ===================================================================== *)
(** ** rag_chain.py                                                        *)
(* ===================================================================== *)

Definition format_docs (docs : list Document) : string :=
  str_join (newline +:+ newline) (map page_content docs).

(** The composed chain: retriever, prompt template and model client (the
    formatter and the output parser are fixed). *)
Record RagChain : Type := mkRagChain {
  chain_retriever : Retriever;
  chain_prompt : string;
  chain_llm : Ollama
}.

Definition Ollama_init (E : Env) (url name : string) : M Ollama :=
  let* _ := emit (EvOllama url name) in
  let* _ := may_fault E SiteOllama in
  ret (mkOllama url name).

(** [StrOutputParser()] on the text of an LLM. *)
Definition StrOutputParser (text : string) : string := text.

(** [len(vector_store)]: the number of records of the collection. *)
Definition Chroma_len (vector_store : Chroma) : M nat :=
  let* d := get_disk in
  ret (length (collection_of d (persist_directory vector_store)
                 (collection_name vector_store))).

(** [not vector_store]: true for [None], and true for a [Chroma] object
    whose collection is empty, since the class has a length and no truth
    value of its own. *)
Definition not_vector_store (vector_store : option Chroma) : M bool :=
  match vector_store with
  | None => ret true
  | Some vector_store =>
      let* n := Chroma_len vector_store in
      ret (n =? 0)
  end.

Definition initialize_rag_chain (E : Env) : M (option RagChain) :=
  let* embedding_model := get_embedding_model E in
  match embedding_model with
  | None => ret None
  | Some embedding_model =>
  let* processed_documents := get_processed_documents E in
  let* vector_store :=
    get_or_create_vector_store E processed_documents embedding_model
      (CHROMA_DB_PATH (PROJECT_ROOT E)) CHROMA_COLLECTION_NAME false in
  let* no_store := not_vector_store vector_store in
  if no_store then ret None
  else
  let* retriever :=
    get_vector_store_retriever E embedding_model
      (CHROMA_DB_PATH (PROJECT_ROOT E)) CHROMA_COLLECTION_NAME TOP_K_RETRIEVAL in
  match retriever with
  | None => ret None
  | Some retriever =>
  let* llm :=
    try_except
      (let* llm := Ollama_init E OLLAMA_BASE_URL OLLAMA_MODEL_NAME in
       ret (Some llm))
      (fun _ => ret None) in
  match llm with
  | None => ret None
  | Some llm =>
  let prompt := RAG_PROMPT_TEMPLATE in
  ret (Some (mkRagChain retriever prompt llm))
  end end end.

(** [retriever.invoke(question)] *)
Definition retriever_invoke (E : Env) (r : Retriever) (question : string)
  : M (list Document) :=
  let* _ := emit (EvSearch question (retriever_k r)) in
  let* d := get_disk in
  let store := retriever_store r in
  lift_result
    (similarity_search E
       (collection_of d (persist_directory store) (collection_name store))
       question (retriever_k r)).

(** [ChatPromptValue.to_string()]: a chat prompt made from one template
    holds a single human message, and a completion model such as [Ollama]
    is called with that message behind its role. *)
Definition to_string (message : string) : string := "Human: " +:+ message.

(** The first two stages of the chain, the same in both invocation modes:
    [{"context": retriever | format_docs, "question": passthrough} | prompt].
    The result is the prompt value as the string that the model client is
    called with. *)
Definition chain_prompt_value (E : Env) (c : RagChain) (question : string)
  : M string :=
  let* docs := retriever_invoke E (chain_retriever c) question in
  let context := format_docs docs in
  let* message :=
    lift_result
      (format (chain_prompt c) [("context", context); ("question", question)]) in
  ret (to_string message).

(** [rag_chain.invoke(question)]: the model client is called with the
    prompt value as a string. *)
Definition rag_chain_invoke (E : Env) (c : RagChain) (question : string)
  : M string :=
  let* prompt_value := chain_prompt_value E c question in
  let* _ := emit (EvLlm prompt_value) in
  let* text := lift_result (llm_invoke E (chain_llm c) prompt_value) in
  ret (StrOutputParser text).

(** What iterating a generator to its end gives: the fragments yielded, the
    exception that ended the iteration if there was one, and the calls
    made. *)
Record stream_outcome : Type := mkStream {
  yielded : list string;
  stream_error : option string;
  stream_trace : list Event
}.

(** [rag_chain.stream(question)], iterated to its end; the model client
    is called with the same string as in [invoke]. *)
Definition rag_chain_stream (E : Env) (c : RagChain) (question : string)
    (d : Disk) : stream_outcome :=
  let o := chain_prompt_value E c question d in
  match res o with
  | Raise e => mkStream [] (Some e) (trace o)
  | Ok prompt_value =>
      let '(fragments, error) := llm_stream E (chain_llm c) prompt_value in
      mkStream (map StrOutputParser fragments) error
        (trace o ++ [EvLlm prompt_value])
  end.

(* ===================================================================== *)
(** ** chatbot_app.py                                                      *)
(* ===================================================================== *)

(** An entry of [st.session_state.messages]. *)
Record Message : Type := mkMessage {
  role : string;
  content : string
}.

(** What survives from one run of the script to the next: the value
    memoised by [st.cache_resource] ([None] before the first completed
    call) and the chat history of the session. *)
Record AppState : Type := mkAppState {
  cache_resource : option (option RagChain);
  messages : list Message
}.

(** What the user did to trigger a run of the script. *)
Inductive Action : Type :=
| NoInput
| ChatInput (prompt : string)
| ClearChat.

Definition NOT_INITIALIZED : string :=
  "Chatbot is not initialized. Please check the setup messages above.".

Definition error_answer (e : string) : string :=
  "An error occurred: " +:+ e
    +:+ ". Please check the console and ensure Ollama is running.".

(** [setup_rag_chain], the function under the decorator. *)
Definition setup_rag_chain (E : Env) : M (option RagChain) :=
  let* rag_chain := initialize_rag_chain E in
  ret rag_chain.

(** [@st.cache_resource]: the body runs when nothing is memoised yet, and
    its return value, whatever it is, is memoised when it returns. *)
Definition cached_setup_rag_chain (E : Env)
    (cache : option (option RagChain))
  : M (option (option RagChain) * option RagChain) :=
  match cache with
  | Some rag_chain => ret (cache, rag_chain)
  | None =>
      let* rag_chain := setup_rag_chain E in
      ret (Some rag_chain, rag_chain)
  end.

(** The [for chunk in rag_chain.stream(prompt): full_response += chunk]
    loop. *)
Definition accumulate (fragments : list string) : string :=
  fold_left (fun full_response chunk => full_response +:+ chunk) fragments EmptyString.

(** The body of [with st.chat_message("assistant")]: the answer text and
    the library calls made. *)
Definition respond (E : Env) (rag_chain : option RagChain) (prompt : string)
    (d : Disk) : string * list Event :=
  match rag_chain with
  | Some chain =>
      let s := rag_chain_stream E chain prompt d in
      match stream_error s with
      | None => (accumulate (yielded s), stream_trace s)
      | Some e => (error_answer e, stream_trace s)
      end
  | None => (NOT_INITIALIZED, [])
  end.

Record run_outcome : Type := mkRun {
  state_after : AppState;
  run_disk : Disk;
  run_trace : list Event;
  (* the assistant's answer of this run, when a question was asked *)
  reply : option string;
  (* the exception that ended the script, when one escaped *)
  uncaught : option string
}.

(** One run of the script, top to bottom.  The run is taken to reach the
    end of the script: the calls that draw on the page return, and
    [st.experimental_rerun()], the last statement of the Clear Chat
    branch, hands over to the next run. *)
Definition run_script (E : Env) (a : Action) (s : AppState) (d : Disk)
  : run_outcome :=
  let o := cached_setup_rag_chain E (cache_resource s) d in
  match res o with
  | Raise e => mkRun s (disk_after o) (trace o) None (Some e)
  | Ok (cache, rag_chain) =>
      match a with
      | ChatInput prompt =>
          if String.eqb prompt EmptyString then
            mkRun (mkAppState cache (messages s)) (disk_after o) (trace o)
              None None
          else
            let history := messages s ++ [mkMessage "user" prompt] in
            let '(full_response, calls) :=
              respond E rag_chain prompt (disk_after o) in
            mkRun
              (mkAppState cache
                 (history ++ [mkMessage "assistant" full_response]))
              (disk_after o) (trace o ++ calls) (Some full_response) None
      | ClearChat =>
          mkRun (mkAppState cache []) (disk_after o) (trace o) None None
      | NoInput =>
          mkRun (mkAppState cache (messages s)) (disk_after o) (trace o)
            None None
      end
  end.

Record session_outcome : Type := mkSession {
  session_state : AppState;
  session_disk : Disk;
  session_trace : list Event;
  replies : list string;
  escaped : list string
}.

(** Successive runs of the script in one process, each under the conditions
    of its own moment. *)
Fixpoint run_session (runs : list (Env * Action)) (s : AppState) (d : Disk)
  : session_outcome :=
  match runs with
  | [] => mkSession s d [] [] []
  | (E, a) :: runs' =>
      let r := run_script E a s d in
      let rest := run_session runs' (state_after r) (run_disk r) in
      mkSession (session_state rest) (session_disk rest)
        (run_trace r ++ session_trace rest)
        (match reply r with
         | Some text => text :: replies rest
         | None => replies rest
         end)
        (match uncaught r with
         | Some e => e :: escaped rest
         | None => escaped rest
         end)
  end.

(** The number of times the initialisation was started: its first step
    always constructs the embedding model. *)
Definition starts_initialization (ev : Event) : bool :=
  match ev with
  | EvHuggingFaceEmbeddings _ => true
  | _ => false
  end.

Definition init_attempts (t : list Event) : nat :=
  length (List.filter starts_initialization t).

(* ===================================================================== *)
(** ** rag_chain.py, run as a script                                       *)
(* ===================================================================== *)

(** [s.lower()] on the letters A to Z; every other byte is kept.  The
    program only compares the result with ['exit'], and a line that holds
    a character outside ASCII never lowers to that word. *)
Definition ascii_lower (c : ascii) : ascii :=
  let n := nat_of_ascii c in
  if (65 <=? n) && (n <=? 90) then ascii_of_nat (n + 32) else c.

Fixpoint str_lower (s : string) : string :=
  match s with
  | EmptyString => EmptyString
  | String c rest => String (ascii_lower c) (str_lower rest)
  end.

Definition TYPE_EXIT : string :=
  newline +:+ "Type 'exit' to quit the chatbot.".

Definition NOT_INITIALIZED_CLI : string :=
  "RAG chain could not be initialized. Please check previous error messages.".

(** What the script leaves behind: the lines printed by the script block
    itself, the library calls, the disk, and the exception that ended the
    process if one escaped. *)
Record cli_outcome : Type := mkCli {
  printed : list string;
  cli_trace : list Event;
  cli_disk : Disk;
  cli_uncaught : option string
}.

(** The [while True:] loop.  Each element of [inputs] is a line typed at
    the [input("You: ")] prompt, with the conditions at that moment; when
    the lines run out, [input] raises [EOFError], which nothing catches. *)
Fixpoint chat_loop (rag_chain : RagChain) (inputs : list (Env * string))
    (d : Disk) : cli_outcome :=
  match inputs with
  | [] => mkCli [] [] d (Some "EOFError")
  | (E, user_query) :: inputs' =>
      if String.eqb (str_lower user_query) "exit" then mkCli [] [] d None
      else
        let o := rag_chain_invoke E rag_chain user_query d in
        let lines :=
          match res o with
          | Ok response => ["Chatbot: " +:+ response]
          | Raise e =>
              ["An error occurred during response generation: " +:+ e;
               "Please check Ollama status and model availability."]
          end in
        let rest := chat_loop rag_chain inputs' (disk_after o) in
        mkCli (("Chatbot: Thinking..." :: lines) ++ printed rest)
              (trace o ++ cli_trace rest) (cli_disk rest) (cli_uncaught rest)
  end.

(** The [if __name__ == "__main__":] block. *)
Definition rag_chain_main (E : Env) (inputs : list (Env * string)) (d : Disk)
  : cli_outcome :=
  let o := initialize_rag_chain E d in
  match res o with
  | Raise e => mkCli [] (trace o) (disk_after o) (Some e)
  | Ok None => mkCli [NOT_INITIALIZED_CLI] (trace o) (disk_after o) None
  | Ok (Some rag_chain) =>
      let rest := chat_loop rag_chain inputs (disk_after o) in
      mkCli (TYPE_EXIT :: printed rest) (trace o ++ cli_trace rest)
            (cli_disk rest) (cli_uncaught rest)
  end.

(* ===================================================================== *)
(** ** Vocabulary of the properties                                        *)
(* ===================================================================== *)

(** The files of a directory tree in the order of the walk, each with the
    directory it is in. *)
Definition files_of (E : Env) (directory : string) : list (string * string) :=
  flat_map (fun '(root, _, files) => map (pair root) files)
           (os_walk E directory).

(** What one file adds to the result of [load_documents], its loader once
    constructed. *)
Definition file_documents (E : Env) (root file_name : string) : list Document :=
  match select_loader file_name (os_path_join root file_name) with
  | None => []
  | Some loader =>
      match loader_load E loader with
      | Ok loaded => loaded
      | Raise _ => []
      end
  end.

Definition documents_of_files (E : Env) (fs : list (string * string))
  : list Document :=
  flat_map (fun '(root, file_name) => file_documents E root file_name) fs.

(** The loaders of a list of files, in order. *)
Definition loaders_of (fs : list (string * string)) : list Loader :=
  flat_map (fun f : string * string =>
              match select_loader f.2 (os_path_join f.1 f.2) with
              | Some loader => [loader]
              | None => []
              end) fs.

(** The exception that constructing the loader of a file raises, if it
    does. *)
Definition constructor_fault (E : Env) (f : string * string) : option string :=
  match select_loader f.2 (os_path_join f.1 f.2) with
  | None => None
  | Some loader => fault E (SiteLoader loader)
  end.

(** Along a list of files: the first exception raised by a loader
    constructor, and the files that come before it. *)
Fixpoint first_fault (E : Env) (fs : list (string * string)) : option string :=
  match fs with
  | [] => None
  | f :: fs' =>
      match constructor_fault E f with
      | Some e => Some e
      | None => first_fault E fs'
      end
  end.

Fixpoint before_fault (E : Env) (fs : list (string * string))
  : list (string * string) :=
  match fs with
  | [] => []
  | f :: fs' =>
      match constructor_fault E f with
      | Some _ => []
      | None => f :: before_fault E fs'
      end
  end.

(** Loading the files [fs] one after the other from the documents loaded
    so far: the result, and the loaders that run. *)
Definition loading (E : Env) (documents : list Document)
    (fs : list (string * string)) (d : Disk) : outcome (list Document) :=
  mkOutcome
    (match first_fault E fs with
     | Some e => Raise e
     | None => Ok (documents ++ documents_of_files E fs)
     end)
    d
    (map EvLoad (loaders_of (before_fault E fs))).

(** Every loader of the tree can be constructed. *)
Definition loaders_constructed (E : Env) (directory : string) : Prop :=
  first_fault E (files_of E directory) = None.

(** A file of a supported type whose loader is constructed and returns. *)
Definition loadable (E : Env) (f : string * string) : bool :=
  match select_loader f.2 (os_path_join f.1 f.2) with
  | None => false
  | Some loader =>
      match fault E (SiteLoader loader), loader_load E loader with
      | None, Ok _ => true
      | _, _ => false
      end
  end.

Definition unsupported (f : string * string) : Prop :=
  select_loader f.2 (os_path_join f.1 f.2) = None.

Definition count_extension (E : Env) (directory ext : string) : nat :=
  length (List.filter (fun f : string * string => endswith f.2 ext)
            (files_of E directory)).

(** One file of each supported type; [.markdown] files are counted apart
    from [.md] files, and other files may be present. *)
Definition one_file_of_each_type (E : Env) (directory : string) : Prop :=
  count_extension E directory ".pdf" = 1
  /\ count_extension E directory ".txt" = 1
  /\ count_extension E directory ".md" = 1
  /\ count_extension E directory ".markdown" = 1.

(** "Exactly one Document per loadable file". *)
Definition one_document_per_loadable_file (E : Env) (directory : string)
    (d : Disk) : Prop :=
  exists docs,
    res (load_documents E directory d) = Ok docs
    /\ length docs = length (List.filter (loadable E) (files_of E directory)).

(** Every loader that returns for a file of the tree returns one Document. *)
Definition single_document_loaders (E : Env) (directory : string) : Prop :=
  forall root file_name loader loaded,
    In (root, file_name) (files_of E directory) ->
    select_loader file_name (os_path_join root file_name) = Some loader ->
    loader_load E loader = Ok loaded ->
    length loaded = 1.

(** The prompts handed to the model client, in order. *)
Fixpoint prompts_sent (t : list Event) : list string :=
  match t with
  | [] => []
  | EvLlm prompt :: t' => prompt :: prompts_sent t'
  | _ :: t' => prompts_sent t'
  end.

(** A call of the text splitter. *)
Definition is_split (ev : Event) : bool :=
  match ev with
  | EvSplit _ => true
  | _ => false
  end.

Definition is_rmtree (ev : Event) : bool :=
  match ev with
  | EvRmtree _ => true
  | _ => false
  end.

(** The questions of a sequence of runs that reach the chat handler. *)
Fixpoint questions (runs : list (Env * Action)) : list string :=
  match runs with
  | [] => []
  | (_, ChatInput prompt) :: runs' =>
      if String.eqb prompt EmptyString then questions runs'
      else prompt :: questions runs'
  | _ :: runs' => questions runs'
  end.

(** The filled-in instruction template, written out: the content of the
    prompt's one message. *)
Definition filled_template (context question : string) : string :=
  "
You are a helpful assistant providing information about company products.
Answer the following question based ONLY on the provided context.
If the answer is not in the context, state that you don't have enough information.
Keep your answer concise and to the point.

Context:
" +:+ context +:+ "

Question: " +:+ question +:+ "

Answer:
".

(** The prompt as the model client receives it. *)
Definition human_prompt (context question : string) : string :=
  "Human: " +:+ filled_template context question.

(** Texts separated by one blank line, by recursion from the front. *)
Fixpoint blank_line_joined (texts : list string) : string :=
  match texts with
  | [] => EmptyString
  | [text] => text
  | text :: rest => text +:+ newline +:+ newline +:+ blank_line_joined rest
  end.

(** No record is lost from any collection. *)
Definition grows (d d' : Disk) : Prop :=
  forall path name, collection_of d path name `prefix_of` collection_of d' path name.

(** A computation is [safe] when it loses no record and never removes a
    directory tree. *)
Definition safe {A} (m : M A) : Prop :=
  forall d,
    grows d (disk_after (m d))
    /\ Forall (fun ev => is_rmtree ev = false) (trace (m d)).

(** The directory made by [os.makedirs(path, exist_ok=True)]. *)
Definition with_directory (path : string) (d : Disk) : Disk :=
  match d !! path with
  | Some _ => d
  | None => <[path := ∅]> d
  end.

(** A computation that writes nothing outside the tree rooted at [path]. *)
Definition confined_to {A} (path : string) (m : M A) : Prop :=
  forall d other,
    beneath path other = false -> disk_after (m d) !! other = d !! other.

(** The chunks that the start-up computes from the corpus, its loaders
    once constructed. *)
Definition corpus_chunks (E : Env) : list Document :=
  let raw :=
    documents_of_files E (files_of E (PRODUCT_DOCS_DIR (PROJECT_ROOT E))) in
  if truthy raw then split_documents_with E CHUNK_SIZE CHUNK_OVERLAP raw
  else [].

(** The library calls of [get_processed_documents] when every loader is
    constructed. *)
Definition corpus_trace (E : Env) : list Event :=
  let dir := PRODUCT_DOCS_DIR (PROJECT_ROOT E) in
  let raw := documents_of_files E (files_of E dir) in
  EvWalk dir :: map EvLoad (loaders_of (files_of E dir))
    ++ (if truthy raw then [EvSplit (length raw)] else []).

(** The chain that a successful start-up under [E] builds. *)
Definition configured_chain (E : Env) : RagChain :=
  mkRagChain
    (mkRetriever
       (mkChroma (CHROMA_DB_PATH (PROJECT_ROOT E))
                 (mkEmbeddings EMBEDDING_MODEL_NAME "cpu" false)
                 CHROMA_COLLECTION_NAME)
       TOP_K_RETRIEVAL)
    RAG_PROMPT_TEMPLATE
    (mkOllama OLLAMA_BASE_URL OLLAMA_MODEL_NAME).

(** The records of the application's own collection. *)
Definition app_collection (E : Env) (d : Disk) : list Document :=
  collection_of d (CHROMA_DB_PATH (PROJECT_ROOT E)) CHROMA_COLLECTION_NAME.

(** Library calls that change what is stored. *)
Definition writes_store (ev : Event) : bool :=
  match ev with
  | EvAddDocuments _ | EvFromDocuments _ | EvRmtree _ => true
  | _ => false
  end.

(** The calls of answering a question: a search and a model call. *)
Definition is_query_event (ev : Event) : bool :=
  match ev with
  | EvSearch _ _ | EvLlm _ => true
  | _ => false
  end.

(** The lines typed before the first one that reads [exit] in any letter
    case. *)
Fixpoint before_exit (inputs : list (Env * string)) : list (Env * string) :=
  match inputs with
  | [] => []
  | (E, line) :: inputs' =>
      if String.eqb (str_lower line) "exit" then []
      else (E, line) :: before_exit inputs'
  end.

(** Whether one of the lines reads [exit] in some letter case. *)
Definition types_exit (inputs : list (Env * string)) : bool :=
  existsb (fun i : Env * string => String.eqb (str_lower i.2) "exit") inputs.

(** The queries handed to the retriever, in order. *)
Fixpoint searched (t : list Event) : list string :=
  match t with
  | [] => []
  | EvSearch query _ :: t' => query :: searched t'
  | _ :: t' => searched t'
  end.

(** The disk after [n] starts of the program, one after the other. *)
Definition restarts (E : Env) (n : nat) (d : Disk) : Disk :=
  Nat.iter n (fun d' => disk_after (initialize_rag_chain E d')) d.

(** The library calls of a start-up in which nothing raises: up to the
    store, and after it. *)
Definition store_trace (E : Env) : list Event :=
  let path := CHROMA_DB_PATH (PROJECT_ROOT E) in
  [EvHuggingFaceEmbeddings EMBEDDING_MODEL_NAME]
    ++ corpus_trace E
    ++ [EvMakedirs path; EvChroma path CHROMA_COLLECTION_NAME]
    ++ (if truthy (corpus_chunks E) then [EvAddDocuments (corpus_chunks E)]
        else []).

Definition chain_trace (E : Env) : list Event :=
  [EvChroma (CHROMA_DB_PATH (PROJECT_ROOT E)) CHROMA_COLLECTION_NAME;
   EvAsRetriever TOP_K_RETRIEVAL;
   EvOllama OLLAMA_BASE_URL OLLAMA_MODEL_NAME].

Definition startup_trace (E : Env) : list Event :=
  store_trace E ++ chain_trace E.

(* ===================================================================== *)
(** ** Sample environments                                                 *)
(* ===================================================================== *)

Module Sample.

Definition docs_dir : string := "/srv/bot/data/product_docs".

Definition page (n : string) : Document :=
  mkDocument ("Cable catalogue, page " +:+ n)
             [("source", "/srv/bot/data/product_docs/catalogue.pdf"); ("page", n)].

Definition prices : Document :=
  mkDocument "Product A costs $100."
             [("source", "/srv/bot/data/product_docs/prices.txt")].

Definition faq : Document :=
  mkDocument "Q: Warranty? A: One year."
             [("source", "/srv/bot/data/product_docs/faq.md")].

Definition notes : Document :=
  mkDocument "Delivery takes five days."
             [("source", "/srv/bot/data/product_docs/notes.markdown")].

Definition walk (directory : string)
  : list (string * list string * list string) :=
  if String.eqb directory docs_dir
  then [(docs_dir, [],
         ["catalogue.pdf"; "prices.txt"; "faq.md"; "notes.markdown"; "logo.png"])]
  else [].

(** A catalogue of [pages] pages: the PDF loader returns one Document per
    page. *)
Definition loaders (pages : list string) (loader : Loader)
  : result (list Document) :=
  match loader with
  | PyPDFLoader _ => Ok (map page pages)
  | TextLoader _ _ => Ok [prices]
  | UnstructuredMarkdownLoader path =>
      if endswith path ".md" then Ok [faq] else Ok [notes]
  end.

Definition no_fault (s : Site) : option string := None.

Definition search (records : list Document) (query : string) (k : nat)
  : result (list Document) := Ok (take k records).

Definition answer : list string := ["Product A"; " costs"; " $100."].

Definition env (pages : list string) : Env :=
  mkEnv "/srv/bot" walk (loaders pages) (fun _ _ docs => docs) no_fault search
        (fun _ _ => Ok (String.concat EmptyString answer))
        (fun _ _ => (answer, None)).

(** The same place with the text file unreadable. *)
Definition env_broken_txt : Env :=
  mkEnv "/srv/bot" walk
        (fun loader =>
           match loader with
           | TextLoader _ _ => Raise "UnicodeDecodeError"
           | _ => loaders ["1"] loader
           end)
        (fun _ _ docs => docs) no_fault search
        (fun _ _ => Ok (String.concat EmptyString answer))
        (fun _ _ => (answer, None)).

(** The same place with the catalogue a dangling link: the PDF loader
    refuses the path when it is constructed. *)
Definition not_a_file : string :=
  "File path /srv/bot/data/product_docs/catalogue.pdf is not a valid file or url".

Definition env_dangling_pdf : Env :=
  mkEnv "/srv/bot" walk (loaders ["1"]) (fun _ _ docs => docs)
        (fun s => match s with
                  | SiteLoader (PyPDFLoader _) => Some not_a_file
                  | _ => None
                  end)
        search
        (fun _ _ => Ok (String.concat EmptyString answer))
        (fun _ _ => (answer, None)).

(** A corpus directory holding an image only. *)
Definition env_no_supported : Env :=
  mkEnv "/srv/bot"
        (fun directory => [(directory, [], ["logo.png"])])
        (loaders ["1"]) (fun _ _ docs => docs) no_fault search
        (fun _ _ => Ok (String.concat EmptyString answer))
        (fun _ _ => (answer, None)).

(** The embedding model cannot be loaded. *)
Definition env_no_embeddings : Env :=
  mkEnv "/srv/bot" walk (loaders ["1"]) (fun _ _ docs => docs)
        (fun s => match s with
                  | SiteHuggingFaceEmbeddings => Some "ConnectionError"
                  | _ => None
                  end)
        search
        (fun _ _ => Ok (String.concat EmptyString answer))
        (fun _ _ => (answer, None)).

(** The model endpoint breaks after the first fragment. *)
Definition env_llm_down : Env :=
  mkEnv "/srv/bot" walk (loaders ["1"]) (fun _ _ docs => docs) no_fault search
        (fun _ _ => Raise "Connection refused")
        (fun _ _ => (["Product"], Some "Connection refused")).

(** The state of a deployment after a successful start-up. *)
Definition db_path : string := "/srv/bot/vector_store/chroma_db".

Definition chain : RagChain :=
  mkRagChain
    (mkRetriever
       (mkChroma db_path (mkEmbeddings "all-MiniLM-L6-v2" "cpu" false)
                 "product_info_collection")
       5)
    RAG_PROMPT_TEMPLATE
    (mkOllama "http://localhost:11434" "tinyllama").

Definition store : Disk :=
  set_collection ∅ db_path "product_info_collection"
    [page "1"; prices; faq; notes].

Definition history : list Message :=
  [mkMessage "user" "Do you sell cables?";
   mkMessage "assistant" "Yes, see the catalogue."].

Definition question : string := "How much is Product A?".

(** Adding the same chunk twice to a small collection. *)
Definition small_store : Disk := set_collection ∅ "/db" "things" [faq].

Definition first_add : outcome (option Chroma) :=
  get_or_create_vector_store (env ["1"]) [prices]
    (mkEmbeddings "all-MiniLM-L6-v2" "cpu" false) "/db" "things" false
    small_store.

Definition second_add : outcome (option Chroma) :=
  get_or_create_vector_store (env ["1"]) [prices]
    (mkEmbeddings "all-MiniLM-L6-v2" "cpu" false) "/db" "things" false
    (disk_after first_add).

(** A process whose first run cannot load the embedding model, and three
    later runs under better conditions. *)
Definition failed_start : run_outcome :=
  run_script env_no_embeddings (ChatInput "Hello?") (mkAppState None []) ∅.

Definition later_runs : list (Env * Action) :=
  [(env ["1"], ChatInput question);
   (env ["1"], ClearChat);
   (env_llm_down, ChatInput "And product B?")].

(** A turn during which the model endpoint breaks. *)
Definition failed_turn : run_outcome :=
  run_script env_llm_down (ChatInput question)
    (mkAppState (Some (Some chain)) history) store.

(** Other conditions: the vector search raises; the Chroma client cannot
    open the store; the Chroma client fails altogether; the model client
    cannot be made. *)
Definition env_with (faults : Site -> option string)
    (searching : list Document -> string -> nat -> result (list Document))
  : Env :=
  mkEnv "/srv/bot" walk (loaders ["1"]) (fun _ _ docs => docs) faults searching
        (fun _ _ => Ok (String.concat EmptyString answer))
        (fun _ _ => (answer, None)).

Definition env_search_down : Env :=
  env_with no_fault (fun _ _ _ => Raise "index unavailable").

Definition env_store_locked : Env :=
  env_with (fun s => match s with
                     | SiteChroma => Some "database is locked"
                     | _ => None
                     end) search.

Definition env_chroma_down : Env :=
  env_with (fun s => match s with
                     | SiteChroma => Some "database is locked"
                     | SiteFromDocumentsFallback => Some "database is locked"
                     | _ => None
                     end) search.

Definition env_no_ollama : Env :=
  env_with (fun s => match s with
                     | SiteOllama => Some "Connection refused"
                     | _ => None
                     end) search.

Definition embedding : Embeddings := mkEmbeddings "all-MiniLM-L6-v2" "cpu" false.

(** A directory with two collections, a directory beneath it, and a
    directory elsewhere. *)
Definition two_collections : Disk :=
  set_collection
    (set_collection (set_collection (set_collection ∅ "/db" "things" [faq])
                       "/db" "others" [notes])
       "/db/archive" "things" [page "0"])
    "/elsewhere" "things" [prices].

(** Lines typed at the prompt of the command line program. *)
Definition typed : list (Env * string) :=
  [(env ["1"], question); (env_llm_down, "And product B?");
   (env ["1"], "Exit"); (env ["1"], "never read")].

End Sample.

(* ===================================================================== *)
(** ** The primitives on small inputs                                      *)
(* ===================================================================== *)

Example endswith_pdf : endswith "catalogue.pdf" ".pdf" = true.
Proof. reflexivity. Qed.

Example endswith_bare_suffix : endswith ".txt" ".txt" = true.
Proof. reflexivity. Qed.

Example endswith_is_case_sensitive : endswith "catalogue.PDF" ".pdf" = false.
Proof. reflexivity. Qed.

Example endswith_short_name : endswith "md" ".md" = false.
Proof. reflexivity. Qed.

Example select_loader_markdown :
  select_loader "notes.markdown" "/docs/notes.markdown"
  = Some (UnstructuredMarkdownLoader "/docs/notes.markdown").
Proof. reflexivity. Qed.

Example select_loader_image : select_loader "logo.png" "/docs/logo.png" = None.
Proof. reflexivity. Qed.

Example os_path_join_plain : os_path_join "/srv/bot" "data" = "/srv/bot/data".
Proof. reflexivity. Qed.

Example os_path_join_trailing_slash : os_path_join "/srv/" "data" = "/srv/data".
Proof. reflexivity. Qed.

Example format_escaped_braces :
  format "{{x}} is {x}" [("x", "1")] = Ok "{x} is 1".
Proof. reflexivity. Qed.

Example format_missing_key : format "{y}" [("x", "1")] = Raise "KeyError".
Proof. reflexivity. Qed.

Example format_single_brace : format "a } b" [] = Raise "ValueError".
Proof. reflexivity. Qed.

Example format_docs_two :
  format_docs [Sample.prices; Sample.faq]
  = "Product A costs $100." +:+ newline +:+ newline
      +:+ "Q: Warranty? A: One year.".
Proof. reflexivity. Qed.

(* ===================================================================== *)
(** ** Computations, step by step                                          *)
(* ===================================================================== *)

Lemma bind_outcome {A B} (m : M A) (f : A -> M B) d a d1 t1 :
  m d = mkOutcome (Ok a) d1 t1 ->
  bind m f d
  = mkOutcome (res (f a d1)) (disk_after (f a d1)) (t1 ++ trace (f a d1)).
Proof. intros Hm. unfold bind. now rewrite Hm. Qed.

Lemma bind_step {A B} (m : M A) (f : A -> M B) d a :
  res (m d) = Ok a ->
  bind m f d
  = mkOutcome (res (f a (disk_after (m d))))
      (disk_after (f a (disk_after (m d))))
      (trace (m d) ++ trace (f a (disk_after (m d)))).
Proof. intros Hm. unfold bind. now rewrite Hm. Qed.

Lemma bind_raise {A B} (m : M A) (f : A -> M B) d e :
  res (m d) = Raise e ->
  bind m f d = mkOutcome (Raise e) (disk_after (m d)) (trace (m d)).
Proof. intros Hm. unfold bind. now rewrite Hm. Qed.

Lemma bind_raised {A B} (m : M A) (f : A -> M B) d e d1 t1 :
  m d = mkOutcome (Raise e) d1 t1 ->
  bind m f d = mkOutcome (Raise e) d1 t1.
Proof. intros Hm. unfold bind. now rewrite Hm. Qed.

Lemma bind_ok_inv {A B} (m : M A) (f : A -> M B) d b :
  res (bind m f d) = Ok b ->
  exists a, res (m d) = Ok a /\ res (f a (disk_after (m d))) = Ok b.
Proof.
  unfold bind. destruct (res (m d)) as [a|e]; simpl; [|discriminate].
  intros H. now exists a.
Qed.

Lemma try_except_ok_inv {A} (m : M A) (h : string -> M A) d b :
  res (try_except m h d) = Ok b ->
  res (m d) = Ok b
  \/ exists e, res (m d) = Raise e /\ res (h e (disk_after (m d))) = Ok b.
Proof.
  unfold try_except. destruct (res (m d)) as [a|e] eqn:Hm.
  - rewrite Hm. now left.
  - simpl. intros H. right. now exists e.
Qed.

Lemma may_fault_none E s : fault E s = None -> may_fault E s = ret tt.
Proof. intros H. unfold may_fault. now rewrite H. Qed.

Lemma may_fault_some E s e : fault E s = Some e -> may_fault E s = raise e.
Proof. intros H. unfold may_fault. now rewrite H. Qed.

(** Evaluation of the monad operations, leaving the disk terms alone. *)
Ltac run_monad :=
  lazy beta iota zeta delta
    [bind try_except ret raise emit get_disk modify_disk lift_result
     res disk_after trace andb negb orb truthy app].

(* ===================================================================== *)
(** ** Document loading                                                    *)
(* ===================================================================== *)

Lemma loaders_of_app fs1 fs2 :
  loaders_of (fs1 ++ fs2) = loaders_of fs1 ++ loaders_of fs2.
Proof. unfold loaders_of. apply flat_map_app. Qed.

Lemma documents_of_files_app E fs1 fs2 :
  documents_of_files E (fs1 ++ fs2)
  = documents_of_files E fs1 ++ documents_of_files E fs2.
Proof. unfold documents_of_files. apply flat_map_app. Qed.

Lemma first_fault_app E fs1 fs2 :
  first_fault E (fs1 ++ fs2)
  = match first_fault E fs1 with
    | Some e => Some e
    | None => first_fault E fs2
    end.
Proof.
  induction fs1 as [|f fs1 IH]; [reflexivity|].
  cbn [app first_fault]. destruct (constructor_fault E f); [reflexivity|exact IH].
Qed.

Lemma before_fault_app E fs1 fs2 :
  before_fault E (fs1 ++ fs2)
  = match first_fault E fs1 with
    | Some _ => before_fault E fs1
    | None => fs1 ++ before_fault E fs2
    end.
Proof.
  induction fs1 as [|f fs1 IH]; [reflexivity|].
  cbn [app first_fault before_fault].
  destruct (constructor_fault E f); [reflexivity|].
  rewrite IH. destruct (first_fault E fs1); reflexivity.
Qed.

Lemma before_fault_all E fs : first_fault E fs = None -> before_fault E fs = fs.
Proof.
  induction fs as [|f fs IH]; [reflexivity|]. cbn [first_fault before_fault].
  destruct (constructor_fault E f); [discriminate|].
  intros Hnone. now rewrite IH.
Qed.

Lemma no_loader_fault E fs :
  (forall loader, fault E (SiteLoader loader) = None) -> first_fault E fs = None.
Proof.
  intros Hnone. induction fs as [|f fs IH]; [reflexivity|].
  cbn [first_fault]. unfold constructor_fault.
  destruct (select_loader f.2 (os_path_join f.1 f.2)); [rewrite Hnone|]; exact IH.
Qed.

(** One file: an exception of the constructor escapes, an exception of
    [load] does not. *)
Lemma load_file_outcome E root documents file_name d :
  load_file E root documents file_name d
  = match constructor_fault E (root, file_name) with
    | Some e => mkOutcome (Raise e) d []
    | None =>
        mkOutcome (Ok (documents ++ file_documents E root file_name)) d
          (map EvLoad (loaders_of [(root, file_name)]))
    end.
Proof.
  unfold load_file, constructor_fault, file_documents, loaders_of.
  cbn [flat_map fst snd].
  destruct (select_loader file_name (os_path_join root file_name)) as [loader|].
  - unfold may_fault. destruct (fault E (SiteLoader loader)) as [e|];
      [reflexivity|].
    unfold load.
    destruct (loader_load E loader) as [loaded|e]; rewrite ?app_nil_r;
      reflexivity.
  - rewrite app_nil_r. reflexivity.
Qed.

Lemma load_files_outcome E root files documents d :
  for_each files (load_file E root) documents d
  = loading E documents (map (pair root) files) d.
Proof.
  unfold loading. revert documents.
  induction files as [|f files IH]; intros documents.
  - cbn. now rewrite app_nil_r.
  - cbn [for_each map first_fault before_fault]. unfold bind at 1.
    rewrite load_file_outcome.
    destruct (constructor_fault E (root, f)) as [e|]; [reflexivity|].
    cbn [res disk_after trace]. rewrite IH. cbn [res disk_after trace].
    change ((root, f) :: before_fault E (map (pair root) files))
      with ([(root, f)] ++ before_fault E (map (pair root) files)).
    rewrite loaders_of_app, map_app. f_equal.
    destruct (first_fault E (map (pair root) files)); [reflexivity|].
    change ((root, f) :: map (pair root) files)
      with ([(root, f)] ++ map (pair root) files).
    rewrite documents_of_files_app, app_assoc. do 3 f_equal.
    unfold documents_of_files. cbn [flat_map]. now rewrite app_nil_r.
Qed.

Lemma load_walk_outcome E entries documents d :
  for_each entries (load_entry E) documents d
  = loading E documents
      (flat_map (fun '(root, _, files) => map (pair root) files) entries) d.
Proof.
  revert documents.
  induction entries as [|[[root dirs] files] entries IH]; intros documents.
  - unfold loading. cbn. now rewrite app_nil_r.
  - cbn [for_each flat_map].
    assert (Hentry : load_entry E documents (root, dirs, files) d
                     = loading E documents (map (pair root) files) d)
      by apply load_files_outcome.
    unfold loading in *. rewrite first_fault_app, before_fault_app.
    destruct (first_fault E (map (pair root) files)) as [e|] eqn:Hfiles.
    + now rewrite (bind_raised _ _ _ _ _ _ Hentry).
    + rewrite (bind_outcome _ _ _ _ _ _ Hentry), IH.
      cbn [res disk_after trace].
      rewrite (before_fault_all _ _ Hfiles), loaders_of_app, map_app. f_equal.
      destruct (first_fault E _); [reflexivity|].
      now rewrite documents_of_files_app, app_assoc.
Qed.

(** [load_documents] as a whole: it raises what the first failing
    constructor raises, after the loaders of the files before it have
    run; otherwise it returns what the files contribute one by one, in
    the order of the walk. *)
Lemma load_documents_outcome E directory d :
  load_documents E directory d
  = mkOutcome
      (match first_fault E (files_of E directory) with
       | Some e => Raise e
       | None => Ok (documents_of_files E (files_of E directory))
       end)
      d
      (EvWalk directory
         :: map EvLoad (loaders_of (before_fault E (files_of E directory)))).
Proof.
  unfold load_documents, files_of.
  assert (Hwalk : emit (EvWalk directory) d
                  = mkOutcome (Ok tt) d [EvWalk directory]) by reflexivity.
  rewrite (bind_outcome _ _ _ _ _ _ Hwalk), load_walk_outcome.
  reflexivity.
Qed.

Lemma load_documents_result E directory d :
  loaders_constructed E directory ->
  res (load_documents E directory d)
  = Ok (documents_of_files E (files_of E directory)).
Proof.
  intros Hnone. rewrite load_documents_outcome. cbn [res].
  unfold loaders_constructed in Hnone. now rewrite Hnone.
Qed.

Lemma get_processed_documents_outcome E d :
  loaders_constructed E (PRODUCT_DOCS_DIR (PROJECT_ROOT E)) ->
  get_processed_documents E d
  = mkOutcome (Ok (corpus_chunks E)) d (corpus_trace E).
Proof.
  intros Hnone. unfold loaders_constructed in Hnone.
  unfold get_processed_documents, corpus_chunks, corpus_trace.
  unfold bind at 1. rewrite load_documents_outcome, Hnone.
  rewrite (before_fault_all _ _ Hnone).
  cbn [res disk_after trace]. cbv zeta.
  destruct (documents_of_files E
              (files_of E (PRODUCT_DOCS_DIR (PROJECT_ROOT E)))) as [|doc raw].
  - cbn [truthy negb res disk_after trace]. rewrite !app_nil_r. reflexivity.
  - unfold split_documents. cbn [truthy negb]. run_monad. reflexivity.
Qed.

Lemma get_processed_documents_raises E d e :
  first_fault E (files_of E (PRODUCT_DOCS_DIR (PROJECT_ROOT E))) = Some e ->
  get_processed_documents E d
  = mkOutcome (Raise e) d
      (EvWalk (PRODUCT_DOCS_DIR (PROJECT_ROOT E))
         :: map EvLoad
              (loaders_of
                 (before_fault E
                    (files_of E (PRODUCT_DOCS_DIR (PROJECT_ROOT E)))))).
Proof.
  intros Hsome. unfold get_processed_documents. unfold bind at 1.
  rewrite load_documents_outcome, Hsome. reflexivity.
Qed.

Lemma length_documents_of_files E fs :
  first_fault E fs = None ->
  (forall root file_name loader loaded,
      In (root, file_name) fs ->
      select_loader file_name (os_path_join root file_name) = Some loader ->
      loader_load E loader = Ok loaded ->
      length loaded = 1) ->
  length (documents_of_files E fs) = length (List.filter (loadable E) fs).
Proof.
  induction fs as [|[root f] fs IH]; intros Hnone Hone; [reflexivity|].
  cbn [first_fault] in Hnone.
  destruct (constructor_fault E (root, f)) as [e|] eqn:Hf; [discriminate|].
  unfold documents_of_files in *. cbn [flat_map List.filter].
  rewrite length_app, IH by (try assumption; intros; eapply Hone; eauto; now right).
  unfold constructor_fault in Hf.
  unfold file_documents, loadable. cbn [fst snd] in *.
  destruct (select_loader f (os_path_join root f)) as [loader|] eqn:Hsel;
    [|reflexivity].
  rewrite Hf.
  destruct (loader_load E loader) as [loaded|e] eqn:Hload; [|reflexivity].
  rewrite (Hone root f loader loaded); [reflexivity|now left|assumption..].
Qed.



Lemma single_document_loaders_sample :
  single_document_loaders (Sample.env ["1"]) Sample.docs_dir.
Proof.
  intros root f loader loaded Hin Hsel Hload.
  vm_compute in Hin.
  destruct Hin as [H|[H|[H|[H|[H|[]]]]]]; injection H as <- <-;
    vm_compute in Hsel; try discriminate Hsel;
    injection Hsel as <-; vm_compute in Hload; injection Hload as <-;
    reflexivity.
Defined.


(** C6: the program does not do what C6 says for every failure of a file.
    The [try] is around [loader.load()] only, and the loader is
    constructed before it: with the catalogue a dangling link, the PDF
    loader refuses the path when it is constructed, the exception leaves
    [load_documents] before any loader has run, the three good files after
    it are never read, and [get_processed_documents] and the whole
    initialisation raise as well.  In the same directory a file that fails
    inside [load()] is skipped as C6 says, and so is the tree without any
    supported file. *)
Theorem load_documents_constructor_failure_escapes :
  files_of Sample.env_dangling_pdf Sample.docs_dir
  = map (pair Sample.docs_dir)
      ["catalogue.pdf"; "prices.txt"; "faq.md"; "notes.markdown"; "logo.png"]
  /\ load_documents Sample.env_dangling_pdf Sample.docs_dir ∅
     = mkOutcome (Raise Sample.not_a_file) ∅ [EvWalk Sample.docs_dir]
  /\ res (get_processed_documents Sample.env_dangling_pdf ∅)
     = Raise Sample.not_a_file
  /\ res (initialize_rag_chain Sample.env_dangling_pdf ∅)
     = Raise Sample.not_a_file
  /\ res (load_documents Sample.env_broken_txt Sample.docs_dir ∅)
     = Ok [Sample.page "1"; Sample.faq; Sample.notes]
  /\ res (load_documents Sample.env_no_supported Sample.docs_dir ∅) = Ok [].
Proof. repeat split; vm_compute; reflexivity. Qed.

(* ===================================================================== *)
(** ** The persisted collections                                           *)
(* ===================================================================== *)

Lemma collection_of_set_collection d path name records p n :
  collection_of (set_collection d path name records) p n
  = if decide (p = path /\ n = name) then records else collection_of d p n.
Proof.
  unfold collection_of, set_collection.
  destruct (decide (p = path)) as [->|Hp].
  - rewrite lookup_insert_eq. simpl.
    destruct (decide (n = name)) as [->|Hn].
    + rewrite lookup_insert_eq. rewrite decide_True by done. reflexivity.
    + rewrite lookup_insert_ne by done. rewrite decide_False by tauto.
      destruct (d !! path); simpl; [reflexivity|]. now rewrite lookup_empty.
  - rewrite lookup_insert_ne by done. rewrite decide_False by tauto.
    reflexivity.
Qed.

Lemma collection_of_set_same d path name records :
  collection_of (set_collection d path name records) path name = records.
Proof. rewrite collection_of_set_collection. now rewrite decide_True. Qed.

Lemma collection_of_makedirs d path p n :
  d !! path = None ->
  collection_of (<[path := ∅]> d) p n = collection_of d p n.
Proof.
  intros Hnone. unfold collection_of.
  destruct (decide (p = path)) as [->|Hp].
  - rewrite lookup_insert_eq, Hnone. simpl. now rewrite lookup_empty.
  - now rewrite lookup_insert_ne.
Qed.

Lemma beneath_refl path : beneath path path = true.
Proof. unfold beneath. now rewrite String.eqb_refl. Qed.

Lemma beneath_other top path : beneath top path = false -> path <> top.
Proof. intros Hout ->. now rewrite beneath_refl in Hout. Qed.

Lemma lookup_without_tree top d p :
  without_tree top d !! p = if beneath top p then None else d !! p.
Proof.
  unfold without_tree. destruct (beneath top p) eqn:Hin.
  - apply map_lookup_filter_None. right. intros x _ Hout.
    cbn in Hout. congruence.
  - destruct (d !! p) as [collections|] eqn:Hd.
    + apply map_lookup_filter_Some. split; [exact Hd | exact Hin].
    + apply map_lookup_filter_None. now left.
Qed.

Lemma collection_of_without_tree top d p n :
  collection_of (without_tree top d) p n
  = if beneath top p then [] else collection_of d p n.
Proof.
  unfold collection_of. rewrite lookup_without_tree.
  destruct (beneath top p); reflexivity.
Qed.

Lemma grows_refl d : grows d d.
Proof. intros p n. reflexivity. Qed.

Lemma grows_trans d1 d2 d3 : grows d1 d2 -> grows d2 d3 -> grows d1 d3.
Proof. intros H12 H23 p n. etrans; [apply H12 | apply H23]. Qed.

Lemma grows_set_collection d path name extra :
  grows d (set_collection d path name (collection_of d path name ++ extra)).
Proof.
  intros p n. rewrite collection_of_set_collection.
  destruct (decide (p = path /\ n = name)) as [[-> ->]|_].
  - now apply prefix_app_r.
  - reflexivity.
Qed.

Lemma safe_ret {A} (a : A) : safe (ret a).
Proof. intros d. split; [apply grows_refl | constructor]. Qed.

Lemma safe_raise {A} e : safe (@raise A e).
Proof. intros d. split; [apply grows_refl | constructor]. Qed.

Lemma safe_emit ev : is_rmtree ev = false -> safe (emit ev).
Proof. intros Hev d. split; [apply grows_refl | now repeat constructor]. Qed.

Lemma safe_get_disk : safe get_disk.
Proof. intros d. split; [apply grows_refl | constructor]. Qed.

Lemma safe_lift_result {A} (r : result A) : safe (lift_result r).
Proof. destruct r; [apply safe_ret | apply safe_raise]. Qed.

Lemma safe_may_fault E s : safe (may_fault E s).
Proof. unfold may_fault. destruct (fault E s); [apply safe_raise | apply safe_ret]. Qed.

Lemma safe_bind {A B} (m : M A) (f : A -> M B) :
  safe m -> (forall a, safe (f a)) -> safe (bind m f).
Proof.
  intros Hm Hf d. unfold bind. destruct (Hm d) as [Hg Ht].
  destruct (res (m d)) as [a|e]; simpl; [|now split].
  destruct (Hf a (disk_after (m d))) as [Hg' Ht']. split.
  - eapply grows_trans; eassumption.
  - apply Forall_app. now split.
Qed.

Lemma safe_bind_ret {A B} (a : A) (f : A -> M B) :
  safe (f a) -> safe (bind (ret a) f).
Proof. intros Hf d. exact (Hf d). Qed.

Lemma safe_try_except {A} (m : M A) (h : string -> M A) :
  safe m -> (forall e, safe (h e)) -> safe (try_except m h).
Proof.
  intros Hm Hh d. unfold try_except. destruct (Hm d) as [Hg Ht].
  destruct (res (m d)) as [a|e]; simpl; [now split|].
  destruct (Hh e (disk_after (m d))) as [Hg' Ht']. split.
  - eapply grows_trans; eassumption.
  - apply Forall_app. now split.
Qed.

Lemma safe_for_each {A S} (xs : list A) (body : S -> A -> M S) acc :
  (forall s x, safe (body s x)) -> safe (for_each xs body acc).
Proof.
  intros Hbody. revert acc.
  induction xs as [|x xs IH]; intros acc; simpl.
  - apply safe_ret.
  - apply safe_bind; [apply Hbody | intros a; apply IH].
Qed.

Create HintDb safe discriminated.
#[export] Hint Resolve safe_ret safe_raise safe_get_disk safe_lift_result
  safe_may_fault : safe.
#[export] Hint Extern 1 (safe (emit _)) =>
  (apply safe_emit; reflexivity) : safe.

Ltac safe_steps :=
  repeat first
    [ solve [auto with safe]
    | apply safe_bind; [|intros ?]
    | apply safe_try_except; [|intros ?]
    | apply safe_for_each; intros ? ? ].

Lemma safe_modify_disk f : (forall d, grows d (f d)) -> safe (modify_disk f).
Proof. intros Hg d. split; [apply Hg | constructor]. Qed.

Lemma safe_os_makedirs path : safe (os_makedirs path).
Proof.
  unfold os_makedirs. safe_steps. apply safe_modify_disk. intros d.
  destruct (d !! path) eqn:Hd; [apply grows_refl|].
  intros p n. now rewrite collection_of_makedirs.
Qed.

Lemma safe_os_path_exists path : safe (os_path_exists path).
Proof. unfold os_path_exists. safe_steps. Qed.

Lemma safe_Chroma_open E site path embedding name :
  safe (Chroma_open E site path embedding name).
Proof.
  unfold Chroma_open. safe_steps. apply safe_modify_disk. intros d.
  rewrite <- (app_nil_r (collection_of d path name)).
  apply grows_set_collection.
Qed.

Lemma safe_add_documents E vector_store documents :
  safe (add_documents E vector_store documents).
Proof.
  unfold add_documents. safe_steps. apply safe_modify_disk. intros d.
  apply grows_set_collection.
Qed.

Lemma safe_Chroma_from_documents E site documents embedding path name :
  safe (Chroma_from_documents E site documents embedding path name).
Proof.
  unfold Chroma_from_documents. safe_steps. apply safe_modify_disk. intros d.
  apply grows_set_collection.
Qed.

#[export] Hint Resolve safe_os_makedirs safe_os_path_exists safe_Chroma_open
  safe_add_documents safe_Chroma_from_documents : safe.

Lemma safe_load_documents E directory : safe (load_documents E directory).
Proof.
  unfold load_documents. safe_steps.
  match goal with x : _ * _ * _ |- _ => destruct x as [[root dirs] files] end.
  unfold load_entry. safe_steps. unfold load_file.
  destruct (select_loader _ _); [|apply safe_ret].
  unfold load. safe_steps.
Qed.

#[export] Hint Resolve safe_load_documents : safe.

Lemma safe_get_processed_documents E : safe (get_processed_documents E).
Proof.
  unfold get_processed_documents. safe_steps.
  destruct (negb _); [apply safe_ret|]. unfold split_documents. safe_steps.
Qed.

Lemma safe_get_embedding_model E : safe (get_embedding_model E).
Proof. unfold get_embedding_model, HuggingFaceEmbeddings. safe_steps. Qed.

(** Without [force_recreate] the store is only opened and added to. *)
Lemma safe_get_or_create_vector_store E documents embedding path name :
  safe (get_or_create_vector_store E documents embedding path name false).
Proof.
  unfold get_or_create_vector_store. cbn [andb negb].
  apply safe_bind; [apply safe_os_makedirs|]. intros _.
  apply safe_bind_ret. safe_steps; destruct (truthy documents); safe_steps.
Qed.

Lemma safe_get_vector_store_retriever E embedding path name k :
  safe (get_vector_store_retriever E embedding path name k).
Proof. unfold get_vector_store_retriever, as_retriever. safe_steps. Qed.

Lemma safe_not_vector_store vector_store : safe (not_vector_store vector_store).
Proof.
  unfold not_vector_store, Chroma_len.
  destruct vector_store; safe_steps.
Qed.

Lemma safe_initialize_rag_chain E : safe (initialize_rag_chain E).
Proof.
  unfold initialize_rag_chain.
  apply safe_bind; [apply safe_get_embedding_model|].
  intros [embedding|]; [|apply safe_ret].
  apply safe_bind; [apply safe_get_processed_documents|]. intros documents.
  apply safe_bind; [apply safe_get_or_create_vector_store|].
  intros vector_store.
  apply safe_bind; [apply safe_not_vector_store|].
  intros [|]; [apply safe_ret|].
  apply safe_bind; [apply safe_get_vector_store_retriever|].
  intros [retriever|]; [|apply safe_ret].
  apply safe_bind; [unfold Ollama_init; safe_steps|].
  intros [llm|]; apply safe_ret.
Qed.

(** With [force_recreate] the records of the directory are gone: the
    branch that the start-up never takes. *)
Example force_recreate_deletes :
  let d := set_collection ∅ "/db" "things" [Sample.prices; Sample.faq] in
  let o := get_or_create_vector_store (Sample.env ["1"]) [Sample.notes]
             (mkEmbeddings "m" "cpu" false) "/db" "things" true d in
  collection_of (disk_after o) "/db" "things" = [Sample.notes]
  /\ trace o = [EvMakedirs "/db"; EvRmtree "/db"; EvMakedirs "/db";
                EvChroma "/db" "things"; EvFromDocuments [Sample.notes]].
Proof. split; vm_compute; reflexivity. Qed.

(** C10: [initialize_rag_chain] passes [force_recreate=False], so whatever
    the environment does, no directory tree is removed while it runs and
    every collection on disk afterwards starts with the records it held
    before. *)
Theorem initialization_never_deletes_records (E : Env) (d : Disk) :
  Forall (fun ev => is_rmtree ev = false) (trace (initialize_rag_chain E d))
  /\ forall path name,
       collection_of d path name
         `prefix_of` collection_of (disk_after (initialize_rag_chain E d)) path name.
Proof.
  destruct (safe_initialize_rag_chain E d) as [Hgrows Htrace].
  split; [exact Htrace | exact Hgrows].
Qed.

(** C4: when the embedding model cannot be constructed,
    [initialize_rag_chain] returns [None] at once: the only library call
    made is the construction of the embedding model, and the disk is as it
    was. *)
Theorem missing_embedding_model_aborts_initialization
    (E : Env) (d : Disk) (e : string) :
  fault E SiteHuggingFaceEmbeddings = Some e ->
  res (get_embedding_model E d) = Ok None
  /\ initialize_rag_chain E d
     = mkOutcome (Ok None) d [EvHuggingFaceEmbeddings EMBEDDING_MODEL_NAME].
Proof.
  intros Hfault.
  unfold initialize_rag_chain, get_embedding_model, HuggingFaceEmbeddings,
    try_except, bind, may_fault, emit.
  rewrite Hfault. split; reflexivity.
Qed.

Lemma missing_embedding_model_aborts_initialization_witness :
  initialize_rag_chain Sample.env_no_embeddings ∅
  = mkOutcome (Ok None) ∅ [EvHuggingFaceEmbeddings "all-MiniLM-L6-v2"].
Proof.
  apply (missing_embedding_model_aborts_initialization
           Sample.env_no_embeddings ∅ "ConnectionError").
  reflexivity.
Defined.

(* ===================================================================== *)
(** ** Adding to the vector store                                          *)
(* ===================================================================== *)

Lemma get_or_create_adds E documents embedding path name d :
  documents <> [] ->
  fault E SiteChroma = None ->
  fault E SiteAddDocuments = None ->
  let o := get_or_create_vector_store E documents embedding path name false d in
  res o = Ok (Some (mkChroma path embedding name))
  /\ trace o = [EvMakedirs path; EvChroma path name; EvAddDocuments documents]
  /\ collection_of (disk_after o) path name
     = collection_of d path name ++ documents.
Proof.
  intros Hne Hopen Hadd.
  destruct documents as [|doc documents]; [done|].
  unfold get_or_create_vector_store, Chroma_open, add_documents, os_makedirs,
    os_path_exists.
  rewrite (may_fault_none _ _ Hopen), (may_fault_none _ _ Hadd).
  run_monad.
  split; [reflexivity|]. split; [reflexivity|].
  cbn [persist_directory collection_name].
  rewrite !collection_of_set_same.
  destruct (d !! path) eqn:Hd; [reflexivity|].
  now rewrite collection_of_makedirs.
Qed.

(** C2: without [force_recreate] and with a non-empty chunk list, a call
    whose Chroma client opens and adds without raising hands all the
    chunks to [add_documents], which appends them to what the collection
    holds; a second call with the same chunks appends them again, so every
    chunk is then stored twice. *)
Theorem vector_store_appends_without_deduplication
    (E : Env) (documents : list Document) (embedding : Embeddings)
    (path name : string) (d : Disk) :
  documents <> [] ->
  fault E SiteChroma = None ->
  fault E SiteAddDocuments = None ->
  let first := get_or_create_vector_store E documents embedding path name false d in
  let second :=
    get_or_create_vector_store E documents embedding path name false
      (disk_after first) in
  res first = Ok (Some (mkChroma path embedding name))
  /\ trace first
     = [EvMakedirs path; EvChroma path name; EvAddDocuments documents]
  /\ collection_of (disk_after first) path name
     = collection_of d path name ++ documents
  /\ res second = Ok (Some (mkChroma path embedding name))
  /\ collection_of (disk_after second) path name
     = collection_of d path name ++ documents ++ documents.
Proof.
  intros Hne Hopen Hadd first second.
  destruct (get_or_create_adds E documents embedding path name d
              Hne Hopen Hadd) as (Hres1 & Htrace1 & Hstore1).
  destruct (get_or_create_adds E documents embedding path name
              (disk_after first) Hne Hopen Hadd) as (Hres2 & _ & Hstore2).
  repeat split; try assumption.
  fold second in Hstore2. rewrite Hstore2. fold first in Hstore1.
  rewrite Hstore1. now rewrite <- app_assoc.
Qed.

Lemma vector_store_appends_without_deduplication_witness :
  collection_of (disk_after Sample.first_add) "/db" "things"
  = [Sample.faq; Sample.prices]
  /\ collection_of (disk_after Sample.second_add) "/db" "things"
     = [Sample.faq; Sample.prices; Sample.prices].
Proof.
  destruct (vector_store_appends_without_deduplication
              (Sample.env ["1"]) [Sample.prices]
              (mkEmbeddings "all-MiniLM-L6-v2" "cpu" false) "/db" "things"
              Sample.small_store)
    as (_ & _ & Hfirst & _ & Hsecond);
    [discriminate | reflexivity | reflexivity |].
  split.
  - etrans; [exact Hfirst | vm_compute; reflexivity].
  - etrans; [exact Hsecond | vm_compute; reflexivity].
Defined.

(* ===================================================================== *)
(** ** The chain                                                           *)
(* ===================================================================== *)

(** A chain built by [initialize_rag_chain] carries the configured
    template, top-K and model. *)
Lemma initialize_rag_chain_chain E d c :
  res (initialize_rag_chain E d) = Ok (Some c) ->
  chain_prompt c = RAG_PROMPT_TEMPLATE
  /\ retriever_k (chain_retriever c) = TOP_K_RETRIEVAL
  /\ chain_llm c = mkOllama OLLAMA_BASE_URL OLLAMA_MODEL_NAME.
Proof.
  unfold initialize_rag_chain. intros H.
  apply bind_ok_inv in H as ([embedding|] & _ & H); [|discriminate H].
  apply bind_ok_inv in H as (documents & _ & H).
  apply bind_ok_inv in H as (vector_store & _ & H).
  apply bind_ok_inv in H as ([|] & _ & H); [discriminate H|].
  apply bind_ok_inv in H as ([retriever|] & Hretriever & H); [|discriminate H].
  apply bind_ok_inv in H as ([llm|] & Hllm & H); [|discriminate H].
  injection H as <-. cbn [chain_prompt chain_retriever chain_llm].
  split; [reflexivity|]. split.
  - unfold get_vector_store_retriever in Hretriever.
    apply try_except_ok_inv in Hretriever as [Hr|(e & _ & Hr)];
      [|discriminate Hr].
    apply bind_ok_inv in Hr as (store' & _ & Hr).
    apply bind_ok_inv in Hr as (r' & Hr' & Hr).
    injection Hr as <-. unfold as_retriever in Hr'.
    apply bind_ok_inv in Hr' as (? & _ & Hr').
    now injection Hr' as <-.
  - apply try_except_ok_inv in Hllm as [Hr|(e & _ & Hr)]; [|discriminate Hr].
    apply bind_ok_inv in Hr as (llm' & Hr' & Hr).
    injection Hr as <-. unfold Ollama_init in Hr'.
    apply bind_ok_inv in Hr' as (? & _ & Hr').
    apply bind_ok_inv in Hr' as (? & _ & Hr').
    now injection Hr' as <-.
Qed.

Lemma format_rag_prompt_template context question :
  format RAG_PROMPT_TEMPLATE [("context", context); ("question", question)]
  = Ok (filled_template context question).
Proof. vm_compute. reflexivity. Qed.

Lemma retriever_invoke_outcome E r question d :
  retriever_invoke E r question d
  = mkOutcome
      (similarity_search E
         (collection_of d (persist_directory (retriever_store r))
                        (collection_name (retriever_store r)))
         question (retriever_k r))
      d [EvSearch question (retriever_k r)].
Proof.
  unfold retriever_invoke. run_monad.
  destruct (similarity_search E _ question (retriever_k r)); reflexivity.
Qed.

Lemma chain_prompt_value_outcome E c question d :
  chain_prompt_value E c question d
  = mkOutcome
      (match res (retriever_invoke E (chain_retriever c) question d) with
       | Ok docs =>
           match format (chain_prompt c)
                   [("context", format_docs docs); ("question", question)] with
           | Ok message => Ok (to_string message)
           | Raise e => Raise e
           end
       | Raise e => Raise e
       end)
      d [EvSearch question (retriever_k (chain_retriever c))].
Proof.
  unfold chain_prompt_value. unfold bind at 1. rewrite retriever_invoke_outcome.
  cbn [res disk_after trace].
  destruct (similarity_search E _ question _) as [docs|e]; [|reflexivity].
  unfold bind. destruct (format _ _); reflexivity.
Qed.

(** The prompt value depends on the disk through the retriever's
    collection only. *)
Lemma chain_prompt_value_same_store E c question d1 d2 :
  (let store := retriever_store (chain_retriever c) in
   collection_of d1 (persist_directory store) (collection_name store)
   = collection_of d2 (persist_directory store) (collection_name store)) ->
  res (chain_prompt_value E c question d1)
  = res (chain_prompt_value E c question d2)
  /\ trace (chain_prompt_value E c question d1)
     = trace (chain_prompt_value E c question d2).
Proof.
  intros Hsame. rewrite !chain_prompt_value_outcome, !retriever_invoke_outcome.
  cbn [res trace]. cbv zeta in Hsame. now rewrite Hsame.
Qed.

Lemma rag_chain_stream_same_store E c question d1 d2 :
  (let store := retriever_store (chain_retriever c) in
   collection_of d1 (persist_directory store) (collection_name store)
   = collection_of d2 (persist_directory store) (collection_name store)) ->
  rag_chain_stream E c question d1 = rag_chain_stream E c question d2.
Proof.
  intros Hsame. unfold rag_chain_stream.
  destruct (chain_prompt_value_same_store E c question d1 d2 Hsame) as [-> ->].
  reflexivity.
Qed.

Lemma append_assoc (a b c : string) : (a +:+ b) +:+ c = a +:+ b +:+ c.
Proof.
  induction a as [|ch a' IH]; [reflexivity|].
  change (String ch ((a' +:+ b) +:+ c) = String ch (a' +:+ b +:+ c)).
  now f_equal.
Qed.

Lemma append_empty_r (a : string) : a +:+ EmptyString = a.
Proof.
  induction a as [|ch a' IH]; [reflexivity|].
  change (String ch (a' +:+ EmptyString) = String ch a'). now f_equal.
Qed.

Lemma concat_cons sep text rest :
  rest <> [] ->
  String.concat sep (text :: rest) = text +:+ sep +:+ String.concat sep rest.
Proof. destruct rest; [done|reflexivity]. Qed.

Lemma str_join_app sep (l1 l2 : list string) :
  l1 <> [] -> l2 <> [] ->
  str_join sep (l1 ++ l2) = str_join sep l1 +:+ sep +:+ str_join sep l2.
Proof.
  unfold str_join. intros H1 H2.
  induction l1 as [|x l1 IH]; [done|].
  destruct l1 as [|y l1].
  - simpl app. now rewrite concat_cons.
  - rewrite <- app_comm_cons, concat_cons by (simpl; discriminate).
    rewrite IH by discriminate.
    rewrite (concat_cons sep x (y :: l1)) by discriminate.
    now rewrite !append_assoc.
Qed.

Lemma format_docs_blank_line_joined docs :
  format_docs docs = blank_line_joined (map page_content docs).
Proof.
  unfold format_docs, str_join.
  induction docs as [|doc docs IH]; [reflexivity|].
  destruct docs as [|doc' docs]; [reflexivity|].
  cbn [map] in *. rewrite concat_cons by discriminate. rewrite IH.
  cbn [blank_line_joined]. now rewrite append_assoc.
Qed.

Lemma format_docs_app before after :
  before <> [] -> after <> [] ->
  format_docs (before ++ after)
  = format_docs before +:+ newline +:+ newline +:+ format_docs after.
Proof.
  intros Hb Ha. unfold format_docs. rewrite map_app, str_join_app.
  - now rewrite append_assoc.
  - now destruct before.
  - now destruct after.
Qed.

Lemma accumulate_from (fragments : list string) (start : string) :
  fold_left (fun full_response chunk => full_response +:+ chunk) fragments start
  = start +:+ String.concat EmptyString fragments.
Proof.
  revert start. induction fragments as [|x fragments IH]; intros start.
  - simpl. now rewrite append_empty_r.
  - cbn [fold_left]. rewrite IH.
    destruct fragments as [|y fragments].
    + simpl. now rewrite append_empty_r.
    + rewrite (concat_cons EmptyString x) by discriminate.
      now rewrite append_assoc.
Qed.

Lemma accumulate_concat fragments : accumulate fragments = String.concat EmptyString fragments.
Proof. unfold accumulate. now rewrite accumulate_from. Qed.

Lemma chain_prompt_value_ok E c question d prompt_value :
  res (chain_prompt_value E c question d) = Ok prompt_value ->
  chain_prompt_value E c question d
  = mkOutcome (Ok prompt_value) d
      [EvSearch question (retriever_k (chain_retriever c))].
Proof.
  rewrite chain_prompt_value_outcome. cbn [res]. now intros ->.
Qed.

Lemma rag_chain_invoke_outcome E c question d prompt_value :
  res (chain_prompt_value E c question d) = Ok prompt_value ->
  res (rag_chain_invoke E c question d)
  = llm_invoke E (chain_llm c) prompt_value
  /\ trace (rag_chain_invoke E c question d)
     = [EvSearch question (retriever_k (chain_retriever c)); EvLlm prompt_value].
Proof.
  intros Hprompt. unfold rag_chain_invoke.
  rewrite (bind_outcome _ _ _ _ _ _
             (chain_prompt_value_ok _ _ _ _ _ Hprompt)).
  run_monad. unfold StrOutputParser.
  destruct (llm_invoke E (chain_llm c) prompt_value); split; reflexivity.
Qed.

Lemma rag_chain_stream_outcome E c question d prompt_value :
  res (chain_prompt_value E c question d) = Ok prompt_value ->
  rag_chain_stream E c question d
  = mkStream (llm_stream E (chain_llm c) prompt_value).1
             (llm_stream E (chain_llm c) prompt_value).2
             [EvSearch question (retriever_k (chain_retriever c));
              EvLlm prompt_value].
Proof.
  intros Hprompt. unfold rag_chain_stream.
  rewrite (chain_prompt_value_ok _ _ _ _ _ Hprompt). cbn [res trace].
  destruct (llm_stream E (chain_llm c) prompt_value) as [fragments error].
  cbn [fst snd app]. f_equal. unfold StrOutputParser. apply map_id.
Qed.

Lemma chain_prompt_value_configured E c question d docs :
  chain_prompt c = RAG_PROMPT_TEMPLATE ->
  res (retriever_invoke E (chain_retriever c) question d) = Ok docs ->
  res (chain_prompt_value E c question d)
  = Ok (human_prompt (format_docs docs) question).
Proof.
  intros Htemplate Hdocs.
  rewrite chain_prompt_value_outcome. cbn [res].
  now rewrite Hdocs, Htemplate, format_rag_prompt_template.
Qed.

(** C7, as the specification words it, fails in its last part: the chain
    built by the initialisation retrieves four chunks for the sample
    question, and the one prompt that reaches the model client is not the
    filled-in template but that text behind the role of the message,
    [Human: ]. *)
Lemma prompt_sent_is_not_the_bare_template :
  res (initialize_rag_chain (Sample.env ["1"]) ∅) = Ok (Some Sample.chain)
  /\ res (retriever_invoke (Sample.env ["1"]) (chain_retriever Sample.chain)
            Sample.question Sample.store)
     = Ok [Sample.page "1"; Sample.prices; Sample.faq; Sample.notes]
  /\ prompts_sent
       (trace (rag_chain_invoke (Sample.env ["1"]) Sample.chain
                 Sample.question Sample.store))
     = ["Human: "
          +:+ filled_template
                (format_docs
                   [Sample.page "1"; Sample.prices; Sample.faq; Sample.notes])
                Sample.question]
  /\ prompts_sent
       (trace (rag_chain_invoke (Sample.env ["1"]) Sample.chain
                 Sample.question Sample.store))
     <> [filled_template
           (format_docs
              [Sample.page "1"; Sample.prices; Sample.faq; Sample.notes])
           Sample.question].
Proof.
  split; [vm_compute; reflexivity|]. split; [vm_compute; reflexivity|].
  split; [vm_compute; reflexivity|].
  vm_compute. discriminate.
Qed.

(** C7, amended: [format_docs] is the chunk texts in retrieval order with
    one blank line between consecutive texts, and in both invocation modes
    the one prompt handed to the model client is [Human: ] followed by
    the configured template with that block for [{context}] and the
    question for [{question}]. *)
Theorem prompt_is_template_with_joined_context
    (E0 E : Env) (d0 d : Disk) (c : RagChain) (question : string)
    (docs : list Document) :
  res (initialize_rag_chain E0 d0) = Ok (Some c) ->
  res (retriever_invoke E (chain_retriever c) question d) = Ok docs ->
  format_docs docs = blank_line_joined (map page_content docs)
  /\ (forall before after,
        docs = before ++ after -> before <> [] -> after <> [] ->
        format_docs docs
        = format_docs before +:+ newline +:+ newline +:+ format_docs after)
  /\ res (chain_prompt_value E c question d)
     = Ok ("Human: " +:+ filled_template (format_docs docs) question)
  /\ prompts_sent (trace (rag_chain_invoke E c question d))
     = ["Human: " +:+ filled_template (format_docs docs) question]
  /\ prompts_sent (stream_trace (rag_chain_stream E c question d))
     = ["Human: " +:+ filled_template (format_docs docs) question].
Proof.
  intros Hinit Hdocs.
  destruct (initialize_rag_chain_chain _ _ _ Hinit) as (Htemplate & _ & _).
  pose proof (chain_prompt_value_configured _ _ _ _ _ Htemplate Hdocs)
    as Hprompt.
  unfold human_prompt in Hprompt.
  split; [apply format_docs_blank_line_joined|].
  split; [intros before after -> Hb Ha; now apply format_docs_app|].
  split; [exact Hprompt|]. split.
  - destruct (rag_chain_invoke_outcome _ _ _ _ _ Hprompt) as [_ ->].
    reflexivity.
  - rewrite (rag_chain_stream_outcome _ _ _ _ _ Hprompt). reflexivity.
Qed.

Lemma prompt_is_template_with_joined_context_witness :
  prompts_sent
    (stream_trace
       (rag_chain_stream (Sample.env ["1"]) Sample.chain
          Sample.question Sample.store))
  = ["Human: "
       +:+ filled_template
             (format_docs
                [Sample.page "1"; Sample.prices; Sample.faq; Sample.notes])
             Sample.question].
Proof.
  apply (prompt_is_template_with_joined_context
           (Sample.env ["1"]) (Sample.env ["1"]) ∅ Sample.store Sample.chain
           Sample.question
           [Sample.page "1"; Sample.prices; Sample.faq; Sample.notes]).
  - vm_compute. reflexivity.
  - vm_compute. reflexivity.
Defined.

(* ===================================================================== *)
(** ** The chat application                                                *)
(* ===================================================================== *)

(** A run with something memoised does not initialise again. *)
Lemma cached_setup_hit E rag_chain d :
  cached_setup_rag_chain E (Some rag_chain) d
  = mkOutcome (Ok (Some rag_chain, rag_chain)) d [].
Proof. reflexivity. Qed.

Lemma setup_rag_chain_outcome E d :
  setup_rag_chain E d = initialize_rag_chain E d.
Proof.
  unfold setup_rag_chain, bind.
  destruct (initialize_rag_chain E d) as [[rag_chain|e] d' t]; cbn;
    [now rewrite app_nil_r | reflexivity].
Qed.

Lemma cached_setup_miss E d rag_chain :
  res (initialize_rag_chain E d) = Ok rag_chain ->
  cached_setup_rag_chain E None d
  = mkOutcome (Ok (Some rag_chain, rag_chain))
      (disk_after (initialize_rag_chain E d))
      (trace (initialize_rag_chain E d)).
Proof.
  intros Hinit. unfold cached_setup_rag_chain, bind.
  rewrite setup_rag_chain_outcome, Hinit. cbn. now rewrite app_nil_r.
Qed.

(** The answer and the library calls of a run with a ready chain depend on
    the session only through the question. *)
Lemma respond_same_store E c prompt d1 d2 :
  (let store := retriever_store (chain_retriever c) in
   collection_of d1 (persist_directory store) (collection_name store)
   = collection_of d2 (persist_directory store) (collection_name store)) ->
  respond E (Some c) prompt d1 = respond E (Some c) prompt d2.
Proof.
  intros Hsame. unfold respond.
  now rewrite (rag_chain_stream_same_store E c prompt d1 d2 Hsame).
Qed.

(** Everything a run produces, its chat history apart, is the same
    whatever chat history it starts from. *)
Lemma run_script_history_irrelevant E a cache h1 h2 d :
  let r1 := run_script E a (mkAppState cache h1) d in
  let r2 := run_script E a (mkAppState cache h2) d in
  reply r1 = reply r2
  /\ uncaught r1 = uncaught r2
  /\ run_trace r1 = run_trace r2
  /\ run_disk r1 = run_disk r2
  /\ cache_resource (state_after r1) = cache_resource (state_after r2).
Proof.
  unfold run_script. cbn [cache_resource messages].
  destruct (res (cached_setup_rag_chain E cache d)) as [[cache' rag_chain]|e];
    [|now repeat split].
  destruct a as [|prompt|]; try now repeat split.
  destruct (String.eqb prompt EmptyString); [now repeat split|].
  destruct (respond E rag_chain prompt _) as [full_response calls].
  now repeat split.
Qed.

(** C8: with a ready chain, two runs on the same question whose stores hold
    the same records for the chain's collection hand the same prompt to
    the model client and make the same library calls, whatever the chat
    histories of the two sessions are. *)
Theorem prompt_independent_of_chat_history
    (E : Env) (c : RagChain) (question : string)
    (history1 history2 : list Message) (d1 d2 : Disk) :
  (let store := retriever_store (chain_retriever c) in
   collection_of d1 (persist_directory store) (collection_name store)
   = collection_of d2 (persist_directory store) (collection_name store)) ->
  let r1 := run_script E (ChatInput question)
              (mkAppState (Some (Some c)) history1) d1 in
  let r2 := run_script E (ChatInput question)
              (mkAppState (Some (Some c)) history2) d2 in
  prompts_sent (run_trace r1) = prompts_sent (run_trace r2)
  /\ run_trace r1 = run_trace r2
  /\ reply r1 = reply r2.
Proof.
  intros Hsame. unfold run_script. cbn [cache_resource messages].
  rewrite !cached_setup_hit. cbn [res disk_after trace].
  destruct (String.eqb question EmptyString); [now repeat split|].
  rewrite (respond_same_store E c question d1 d2 Hsame).
  destruct (respond E (Some c) question d2) as [full_response calls].
  now repeat split.
Qed.

Lemma prompt_independent_of_chat_history_witness :
  prompts_sent
    (run_trace
       (run_script (Sample.env ["1"]) (ChatInput Sample.question)
          (mkAppState (Some (Some Sample.chain)) []) Sample.store))
  = prompts_sent
      (run_trace
         (run_script (Sample.env ["1"]) (ChatInput Sample.question)
            (mkAppState (Some (Some Sample.chain)) Sample.history)
            (<["/tmp/other" := ∅]> Sample.store))).
Proof.
  apply (prompt_independent_of_chat_history (Sample.env ["1"]) Sample.chain
           Sample.question [] Sample.history Sample.store
           (<["/tmp/other" := ∅]> Sample.store)).
  vm_compute. reflexivity.
Defined.

(** In the failed state a run touches nothing and answers with the fixed
    text. *)
Lemma run_script_failed E a history d :
  run_script E a (mkAppState (Some None) history) d
  = mkRun
      (mkAppState (Some None)
         (match a with
          | NoInput => history
          | ChatInput prompt =>
              if String.eqb prompt EmptyString then history
              else (history ++ [mkMessage "user" prompt])
                     ++ [mkMessage "assistant" NOT_INITIALIZED]
          | ClearChat => []
          end))
      d []
      (match a with
       | ChatInput prompt =>
           if String.eqb prompt EmptyString then None else Some NOT_INITIALIZED
       | _ => None
       end)
      None.
Proof.
  unfold run_script. cbn [cache_resource messages].
  rewrite cached_setup_hit. cbn [res disk_after trace respond].
  destruct a as [|prompt|]; try reflexivity.
  destruct (String.eqb prompt EmptyString); reflexivity.
Qed.

Lemma run_session_failed runs history d :
  let out := run_session runs (mkAppState (Some None) history) d in
  session_trace out = []
  /\ session_disk out = d
  /\ escaped out = []
  /\ cache_resource (session_state out) = Some None
  /\ replies out = map (fun _ => NOT_INITIALIZED) (questions runs).
Proof.
  revert history. induction runs as [|[E a] runs IH]; intros history.
  - now repeat split.
  - cbn [run_session]. rewrite run_script_failed.
    cbn [state_after run_disk run_trace reply uncaught].
    match goal with
    | |- context [run_session runs (mkAppState (Some None) ?h) d] =>
        destruct (IH h) as (Ht & Hd & He & Hc & Hr)
    end.
    cbn [session_trace session_disk escaped session_state replies app].
    repeat split; try assumption.
    destruct a as [|prompt|]; cbn [questions]; try assumption.
    destruct (String.eqb prompt EmptyString); [assumption|].
    cbn [map]. now f_equal.
Qed.



(** C5: with a ready chain, when the model call raises [e] while the answer
    is generated (after any number of fragments), the run ends normally:
    the exception is caught in the handler, the assistant's message of
    that turn is the error text built from [e], the memoised chain and the
    disk are as before; and whatever is asked next is answered as it would
    have been had the failed question never been asked. *)
Theorem generation_failure_is_inline_answer
    (E : Env) (c : RagChain) (question : string) (history : list Message)
    (d : Disk) (prompt_value : string) (fragments : list string) (e : string) :
  question <> EmptyString ->
  res (chain_prompt_value E c question d) = Ok prompt_value ->
  llm_stream E (chain_llm c) prompt_value = (fragments, Some e) ->
  let r := run_script E (ChatInput question)
             (mkAppState (Some (Some c)) history) d in
  uncaught r = None
  /\ reply r = Some (error_answer e)
  /\ state_after r
     = mkAppState (Some (Some c))
         ((history ++ [mkMessage "user" question])
            ++ [mkMessage "assistant" (error_answer e)])
  /\ run_disk r = d
  /\ forall E' a',
       let next := run_script E' a' (state_after r) (run_disk r) in
       let fresh := run_script E' a' (mkAppState (Some (Some c)) history) d in
       reply next = reply fresh
       /\ uncaught next = uncaught fresh
       /\ run_trace next = run_trace fresh
       /\ run_disk next = run_disk fresh
       /\ cache_resource (state_after next) = cache_resource (state_after fresh).
Proof.
  intros Hne Hprompt Hllm r.
  assert (Hr : r = mkRun
                     (mkAppState (Some (Some c))
                        ((history ++ [mkMessage "user" question])
                           ++ [mkMessage "assistant" (error_answer e)]))
                     d
                     [EvSearch question (retriever_k (chain_retriever c));
                      EvLlm prompt_value]
                     (Some (error_answer e)) None).
  { subst r. unfold run_script. cbn [cache_resource messages].
    rewrite cached_setup_hit. cbn [res disk_after trace].
    apply String.eqb_neq in Hne. rewrite Hne.
    unfold respond. rewrite (rag_chain_stream_outcome _ _ _ _ _ Hprompt).
    rewrite Hllm. reflexivity. }
  rewrite Hr. cbn [uncaught reply state_after run_disk].
  repeat split; apply run_script_history_irrelevant.
Qed.

Lemma generation_failure_is_inline_answer_witness :
  uncaught Sample.failed_turn = None
  /\ reply Sample.failed_turn
     = Some "An error occurred: Connection refused. Please check the console and ensure Ollama is running."
  /\ reply (run_script (Sample.env ["1"]) (ChatInput Sample.question)
              (state_after Sample.failed_turn) (run_disk Sample.failed_turn))
     = Some "Product A costs $100.".
Proof.
  destruct (generation_failure_is_inline_answer
              Sample.env_llm_down Sample.chain Sample.question
              Sample.history Sample.store
              (human_prompt
                 (format_docs
                    [Sample.page "1"; Sample.prices; Sample.faq; Sample.notes])
                 Sample.question)
              ["Product"] "Connection refused")
    as (Huncaught & Hreply & _ & _ & Hnext).
  - discriminate.
  - vm_compute. reflexivity.
  - reflexivity.
  - split; [exact Huncaught|]. split; [exact Hreply|].
    destruct (Hnext (Sample.env ["1"]) (ChatInput Sample.question))
      as (Hsame & _).
    etrans; [exact Hsame | vm_compute; reflexivity].
Defined.

(* ===================================================================== *)
(** ** Further properties: the calls of document loading                   *)
(* ===================================================================== *)

(** X1: [load_documents] leaves the disk alone.  It makes and runs the
    loaders of the files with a supported suffix one after the other, in
    the order of the walk, and no loader for an unsupported file.  When
    every constructor returns, every supported file has its loader run
    once, whether or not a loader before it raised in [load], and the
    Documents returned are those of the files in that order.  When a
    constructor raises, its exception leaves the function, and the loaders
    that have run are those of the files before that one. *)
Theorem load_documents_opens_supported_files_in_order
    (E : Env) (directory : string) (d : Disk) :
  let fs := files_of E directory in
  disk_after (load_documents E directory d) = d
  /\ match first_fault E fs with
     | None =>
         res (load_documents E directory d) = Ok (documents_of_files E fs)
         /\ trace (load_documents E directory d)
            = EvWalk directory :: map EvLoad (loaders_of fs)
     | Some e =>
         res (load_documents E directory d) = Raise e
         /\ trace (load_documents E directory d)
            = EvWalk directory :: map EvLoad (loaders_of (before_fault E fs))
     end
  /\ length (loaders_of fs)
     = length (List.filter (fun f => negb (bool_decide (unsupported f))) fs).
Proof.
  intros fs. subst fs. rewrite load_documents_outcome.
  cbn [disk_after res trace]. split; [reflexivity|]. split.
  - destruct (first_fault E (files_of E directory)) as [e|] eqn:Hfault.
    + split; reflexivity.
    + rewrite (before_fault_all _ _ Hfault). split; reflexivity.
  - unfold loaders_of, unsupported.
    induction (files_of E directory) as [|[root f] fs IH]; [reflexivity|].
    cbn [flat_map List.filter fst snd]. rewrite length_app, IH.
    destruct (select_loader f (os_path_join root f)) as [loader|].
    + rewrite bool_decide_false by discriminate. reflexivity.
    + rewrite bool_decide_true by reflexivity. reflexivity.
Qed.

Lemma is_split_loads loaders : List.filter is_split (map EvLoad loaders) = [].
Proof. induction loaders as [|l ls IH]; [reflexivity|]. cbn. exact IH. Qed.

(** X2: [get_processed_documents] leaves the disk alone.  When every
    loader is constructed and no Document was loaded, it returns the empty
    list without calling the splitter; when Documents were loaded, it
    hands all of them to the splitter in one call, with the configured
    chunk size and overlap, and returns what the splitter returns.  When a
    loader constructor raises, the exception leaves the function and the
    splitter is not called. *)
Theorem get_processed_documents_splits_what_was_loaded (E : Env) (d : Disk) :
  let fs := files_of E (PRODUCT_DOCS_DIR (PROJECT_ROOT E)) in
  let raw := documents_of_files E fs in
  disk_after (get_processed_documents E d) = d
  /\ match first_fault E fs with
     | None =>
         res (get_processed_documents E d)
         = Ok (if truthy raw
               then split_documents_with E CHUNK_SIZE CHUNK_OVERLAP raw
               else [])
         /\ List.filter is_split (trace (get_processed_documents E d))
            = if truthy raw then [EvSplit (length raw)] else []
     | Some e =>
         res (get_processed_documents E d) = Raise e
         /\ List.filter is_split (trace (get_processed_documents E d)) = []
     end.
Proof.
  intros fs raw.
  destruct (first_fault E fs) as [e|] eqn:Hfault.
  - subst fs. rewrite (get_processed_documents_raises _ _ _ Hfault).
    cbn [disk_after res trace List.filter is_split].
    now rewrite is_split_loads.
  - subst fs. rewrite (get_processed_documents_outcome _ _ Hfault).
    cbn [disk_after res trace]. split; [reflexivity|]. split; [reflexivity|].
    unfold corpus_trace. cbv zeta. fold raw.
    cbn [List.filter is_split]. rewrite List.filter_app, is_split_loads.
    destruct (truthy raw); reflexivity.
Qed.

(* ===================================================================== *)
(** ** Further properties: the vector store manager                        *)
(* ===================================================================== *)

Lemma with_directory_exists path d : is_Some (with_directory path d !! path).
Proof.
  unfold with_directory. destruct (d !! path) eqn:Hd.
  - rewrite Hd. eauto.
  - rewrite lookup_insert_eq. eauto.
Qed.

Lemma with_directory_other path d other :
  beneath path other = false -> with_directory path d !! other = d !! other.
Proof.
  intros Hne%beneath_other. unfold with_directory.
  destruct (d !! path); [reflexivity|].
  now rewrite lookup_insert_ne.
Qed.

Lemma collection_of_with_directory path d p n :
  collection_of (with_directory path d) p n = collection_of d p n.
Proof.
  unfold with_directory. destruct (d !! path) eqn:Hd; [reflexivity|].
  now apply collection_of_makedirs.
Qed.

Lemma set_collection_other d path name records other :
  beneath path other = false ->
  set_collection d path name records !! other = d !! other.
Proof.
  intros Hne%beneath_other. unfold set_collection.
  now rewrite lookup_insert_ne.
Qed.

Ltac fold_directories :=
  repeat match goal with
    | |- context [match ?x !! ?p with
                  | Some _ => ?x
                  | None => <[?p := ∅]> ?x
                  end] =>
        change (match x !! p with
                | Some _ => x
                | None => <[p := ∅]> x
                end) with (with_directory p x)
    end.

(** Evaluation of a call to [get_or_create_vector_store] once the faults
    of the environment are known. *)
Ltac run_store :=
  unfold get_or_create_vector_store, get_vector_store_retriever, Chroma_open,
    add_documents, Chroma_from_documents, as_retriever, os_makedirs,
    os_path_exists, shutil_rmtree;
  repeat match goal with
    | H : fault _ _ = None |- _ => rewrite (may_fault_none _ _ H)
    | H : fault _ _ = Some _ |- _ => rewrite (may_fault_some _ _ _ H)
    end;
  run_monad; fold_directories;
  repeat match goal with
    | |- context [bool_decide (is_Some (with_directory ?p ?d !! ?p))] =>
        rewrite (bool_decide_true _ (with_directory_exists p d));
        run_monad; fold_directories
    end;
  cbn [persist_directory collection_name].

(** Collections after a sequence of store operations. *)
Ltac collections :=
  fold (@app Document);
  repeat first
    [ rewrite collection_of_set_same
    | rewrite collection_of_set_collection
    | rewrite collection_of_with_directory ];
  repeat match goal with
    | |- context [decide (?p = ?p /\ ?n = ?n)] =>
        rewrite (decide_True (P := p = p /\ n = n)) by done
    | |- context [decide (?p = ?q /\ ?n = ?m)] =>
        destruct (decide (p = q /\ n = m)) as [[? ?]|?]; subst
    end;
  rewrite ?app_nil_r; try reflexivity.

(** The disk after the directory [path] was removed and made again. *)
Lemma collection_of_rebuilt d path p n :
  collection_of (with_directory path (without_tree path (with_directory path d)))
    p n
  = if beneath path p then [] else collection_of d p n.
Proof.
  rewrite collection_of_with_directory, collection_of_without_tree.
  destruct (beneath path p); [reflexivity|].
  apply collection_of_with_directory.
Qed.


Lemma confined_ret {A} path (a : A) : confined_to path (ret a).
Proof. intros d other _. reflexivity. Qed.

Lemma confined_raise {A} path e : confined_to path (@raise A e).
Proof. intros d other _. reflexivity. Qed.

Lemma confined_emit path ev : confined_to path (emit ev).
Proof. intros d other _. reflexivity. Qed.

Lemma confined_get_disk path : confined_to path get_disk.
Proof. intros d other _. reflexivity. Qed.

Lemma confined_may_fault path E s : confined_to path (may_fault E s).
Proof.
  unfold may_fault. destruct (fault E s); [apply confined_raise | apply confined_ret].
Qed.

Lemma confined_bind {A B} path (m : M A) (f : A -> M B) :
  confined_to path m -> (forall a, confined_to path (f a)) ->
  confined_to path (bind m f).
Proof.
  intros Hm Hf d other Hne. unfold bind. specialize (Hm d other Hne).
  destruct (res (m d)) as [a|e]; cbn [disk_after]; [|exact Hm].
  now rewrite (Hf a _ other Hne).
Qed.

Lemma confined_try_except {A} path (m : M A) (h : string -> M A) :
  confined_to path m -> (forall e, confined_to path (h e)) ->
  confined_to path (try_except m h).
Proof.
  intros Hm Hh d other Hne. unfold try_except. specialize (Hm d other Hne).
  destruct (res (m d)) as [a|e]; cbn [disk_after]; [exact Hm|].
  now rewrite (Hh e _ other Hne).
Qed.

Lemma confined_modify_disk path f :
  (forall d other, beneath path other = false -> f d !! other = d !! other) ->
  confined_to path (modify_disk f).
Proof. intros Hf d other Hne. now apply Hf. Qed.

Create HintDb confined discriminated.
#[export] Hint Resolve confined_ret confined_raise confined_emit
  confined_get_disk confined_may_fault : confined.

Ltac confined_steps :=
  repeat first
    [ solve [auto with confined]
    | apply confined_bind; [|intros ?]
    | apply confined_try_except; [|intros ?] ].

Lemma confined_os_makedirs path : confined_to path (os_makedirs path).
Proof.
  unfold os_makedirs. confined_steps. apply confined_modify_disk.
  intros d other Hne. now apply with_directory_other.
Qed.

Lemma confined_os_path_exists path : confined_to path (os_path_exists path).
Proof. unfold os_path_exists. confined_steps. Qed.

Lemma confined_shutil_rmtree path : confined_to path (shutil_rmtree path).
Proof.
  unfold shutil_rmtree. confined_steps. apply confined_modify_disk.
  intros d other Hne. now rewrite lookup_without_tree, Hne.
Qed.

Lemma confined_Chroma_open E site path embedding name :
  confined_to path (Chroma_open E site path embedding name).
Proof.
  unfold Chroma_open. confined_steps. apply confined_modify_disk.
  intros d other Hne. now apply set_collection_other.
Qed.

Lemma confined_add_documents E embedding path name documents :
  confined_to path (add_documents E (mkChroma path embedding name) documents).
Proof.
  unfold add_documents. confined_steps. apply confined_modify_disk.
  intros d other Hne. now apply set_collection_other.
Qed.

Lemma confined_Chroma_from_documents E site documents embedding path name :
  confined_to path (Chroma_from_documents E site documents embedding path name).
Proof.
  unfold Chroma_from_documents. confined_steps. apply confined_modify_disk.
  intros d other Hne. now apply set_collection_other.
Qed.

#[export] Hint Resolve confined_os_makedirs confined_os_path_exists
  confined_shutil_rmtree confined_Chroma_open
  confined_Chroma_from_documents : confined.

Lemma Chroma_open_handle E site path embedding name d store :
  res (Chroma_open E site path embedding name d) = Ok store ->
  store = mkChroma path embedding name.
Proof.
  unfold Chroma_open. intros H.
  apply bind_ok_inv in H as (? & _ & H).
  apply bind_ok_inv in H as (? & _ & H).
  apply bind_ok_inv in H as (? & _ & H).
  now injection H as <-.
Qed.

Lemma confined_get_or_create_vector_store
    E documents embedding path name force_recreate :
  confined_to path
    (get_or_create_vector_store E documents embedding path name force_recreate).
Proof.
  unfold get_or_create_vector_store.
  apply confined_bind; [auto with confined|]. intros _.
  apply confined_bind; [destruct force_recreate; auto with confined|].
  intros recreate.
  apply confined_bind; [destruct recreate; confined_steps|]. intros _.
  apply confined_try_except.
  - intros d other Hne. unfold bind at 1.
    destruct (res (Chroma_open E SiteChroma path embedding name d))
      as [store|e] eqn:Hopen;
      [|now apply confined_Chroma_open].
    apply Chroma_open_handle in Hopen as Hstore. subst store.
    cbn [disk_after].
    assert (Hrest : confined_to path
              (if negb force_recreate && truthy documents
               then
                 let* _ :=
                   if truthy documents
                   then add_documents E (mkChroma path embedding name) documents
                   else ret tt in
                 ret (Some (mkChroma path embedding name))
               else if truthy documents
               then
                 let* vector_store :=
                   Chroma_from_documents E SiteFromDocuments documents
                     embedding path name in
                 ret (Some vector_store)
               else ret (Some (mkChroma path embedding name)))).
    { destruct (negb force_recreate && truthy documents).
      - apply confined_bind; [|auto with confined].
        destruct (truthy documents);
          [apply confined_add_documents | auto with confined].
      - destruct (truthy documents); confined_steps. }
    rewrite (Hrest _ other Hne). now apply confined_Chroma_open.
  - intros e. destruct (truthy documents); confined_steps.
Qed.

Lemma confined_get_vector_store_retriever E embedding path name k :
  confined_to path (get_vector_store_retriever E embedding path name k).
Proof. unfold get_vector_store_retriever, as_retriever. confined_steps. Qed.


(** X5: called without documents and without [force_recreate],
    [get_or_create_vector_store] adds and removes no record and makes no
    call that writes to the store; when it returns, it returns the opened
    store, or [None] when the Chroma client raised. *)
Theorem get_or_create_without_documents_only_opens
    (E : Env) (embedding : Embeddings) (path name : string) (d : Disk) :
  let o := get_or_create_vector_store E [] embedding path name false d in
  match res o with
  | Ok vector_store =>
      vector_store
      = match fault E SiteChroma with
        | None => Some (mkChroma path embedding name)
        | Some _ => None
        end
  | Raise _ => True
  end
  /\ (forall p n, collection_of (disk_after o) p n = collection_of d p n)
  /\ List.filter writes_store (trace o) = [].
Proof.
  intros o. subst o.
  destruct (fault E SiteChroma) as [e|] eqn:Hopen; run_store;
    (split; [reflexivity|]); (split; [|reflexivity]);
    intros p n; collections.
Qed.

(** X6: when the first attempt fails, because the Chroma client cannot open
    the store or because [add_documents] raises, and there are documents,
    the handler builds the store with [Chroma.from_documents]: if that
    call returns, the store is returned and the collection holds its old
    records followed by the documents, once. *)
Theorem get_or_create_falls_back_to_from_documents
    (E : Env) (documents : list Document) (embedding : Embeddings)
    (path name : string) (d : Disk) (e : string) :
  documents <> [] ->
  fault E SiteChroma = Some e
  \/ (fault E SiteChroma = None /\ fault E SiteAddDocuments = Some e) ->
  fault E SiteFromDocumentsFallback = None ->
  let o := get_or_create_vector_store E documents embedding path name false d in
  res o = Ok (Some (mkChroma path embedding name))
  /\ trace o
     = [EvMakedirs path; EvChroma path name]
         ++ (match fault E SiteChroma with
             | None => [EvAddDocuments documents]
             | Some _ => []
             end)
         ++ [EvFromDocuments documents]
  /\ collection_of (disk_after o) path name
     = collection_of d path name ++ documents.
Proof.
  intros Hne Hfirst Hfallback o. subst o.
  destruct documents as [|doc documents]; [done|].
  destruct Hfirst as [Hopen|[Hopen Hadd]]; rewrite Hopen; run_store;
    (split; [reflexivity|]); (split; [reflexivity|]);
    now rewrite !collection_of_set_same, ?collection_of_with_directory.
Qed.

Lemma get_or_create_none_inv E documents embedding path name d :
  res (get_or_create_vector_store E documents embedding path name false d)
  = Ok None ->
  documents = [] /\ is_Some (fault E SiteChroma).
Proof.
  destruct documents as [|doc documents];
    destruct (fault E SiteChroma) as [e1|] eqn:Hopen;
    destruct (fault E SiteAddDocuments) as [e2|] eqn:Hadd;
    destruct (fault E SiteFromDocuments) as [e3|] eqn:Hfrom;
    destruct (fault E SiteFromDocumentsFallback) as [e4|] eqn:Hfallback;
    run_store; intros Hnone; try discriminate Hnone; eauto.
Qed.

(** X8: [get_vector_store_retriever] never raises: it returns [None] when
    the Chroma client raises and otherwise a retriever bound to the given
    directory, collection, embedding model and [k]; either way no
    collection gains or loses a record. *)
Theorem get_vector_store_retriever_opens_without_writing
    (E : Env) (embedding : Embeddings) (path name : string) (k : nat)
    (d : Disk) :
  res (get_vector_store_retriever E embedding path name k d)
  = Ok (match fault E SiteRetrieverChroma with
        | None => Some (mkRetriever (mkChroma path embedding name) k)
        | Some _ => None
        end)
  /\ forall p n,
       collection_of
         (disk_after (get_vector_store_retriever E embedding path name k d)) p n
       = collection_of d p n.
Proof.
  destruct (fault E SiteRetrieverChroma) as [e|] eqn:Hopen; run_store;
    (split; [reflexivity|]); intros p n; collections.
Qed.

(* ===================================================================== *)
(** ** Further properties: the start-up                                    *)
(* ===================================================================== *)

Lemma get_embedding_model_outcome E d :
  get_embedding_model E d
  = mkOutcome
      (Ok (match fault E SiteHuggingFaceEmbeddings with
           | None => Some (mkEmbeddings EMBEDDING_MODEL_NAME "cpu" false)
           | Some _ => None
           end))
      d [EvHuggingFaceEmbeddings EMBEDDING_MODEL_NAME].
Proof.
  unfold get_embedding_model, HuggingFaceEmbeddings.
  destruct (fault E SiteHuggingFaceEmbeddings) as [e|] eqn:Hfault.
  - rewrite (may_fault_some _ _ _ Hfault). reflexivity.
  - rewrite (may_fault_none _ _ Hfault). reflexivity.
Qed.

Lemma get_vector_store_retriever_outcome E embedding path name k d :
  get_vector_store_retriever E embedding path name k d
  = match fault E SiteRetrieverChroma with
    | None =>
        mkOutcome (Ok (Some (mkRetriever (mkChroma path embedding name) k)))
          (set_collection d path name (collection_of d path name))
          [EvChroma path name; EvAsRetriever k]
    | Some _ => mkOutcome (Ok None) d [EvChroma path name]
    end.
Proof.
  destruct (fault E SiteRetrieverChroma) as [e|] eqn:Hopen; run_store;
    reflexivity.
Qed.

Lemma Ollama_init_guarded_outcome E d :
  try_except
    (let* llm := Ollama_init E OLLAMA_BASE_URL OLLAMA_MODEL_NAME in
     ret (Some llm))
    (fun _ => ret None) d
  = mkOutcome
      (Ok (match fault E SiteOllama with
           | None => Some (mkOllama OLLAMA_BASE_URL OLLAMA_MODEL_NAME)
           | Some _ => None
           end))
      d [EvOllama OLLAMA_BASE_URL OLLAMA_MODEL_NAME].
Proof.
  unfold Ollama_init.
  destruct (fault E SiteOllama) as [e|] eqn:Hfault.
  - rewrite (may_fault_some _ _ _ Hfault). reflexivity.
  - rewrite (may_fault_none _ _ Hfault). reflexivity.
Qed.

(** The store step of the start-up when the Chroma client does not raise. *)
Lemma get_or_create_opens_and_adds E documents embedding path name d :
  fault E SiteChroma = None ->
  (documents = [] \/ fault E SiteAddDocuments = None) ->
  let o := get_or_create_vector_store E documents embedding path name false d in
  res o = Ok (Some (mkChroma path embedding name))
  /\ trace o
     = [EvMakedirs path; EvChroma path name]
         ++ (if truthy documents then [EvAddDocuments documents] else [])
  /\ forall p n,
       collection_of (disk_after o) p n
       = if decide (p = path /\ n = name)
         then collection_of d path name ++ documents
         else collection_of d p n.
Proof.
  intros Hopen Hadd o. subst o.
  destruct documents as [|doc documents].
  - run_store. split; [reflexivity|]. split; [reflexivity|].
    intros p n. collections.
  - destruct Hadd as [Hnil|Hadd]; [discriminate Hnil|].
    run_store. split; [reflexivity|]. split; [reflexivity|].
    intros p n. collections.
Qed.

Lemma get_or_create_some_inv E documents embedding path name d store :
  res (get_or_create_vector_store E documents embedding path name false d)
  = Ok (Some store) ->
  store = mkChroma path embedding name.
Proof.
  destruct documents as [|doc documents];
    destruct (fault E SiteChroma) as [e1|] eqn:Hopen;
    destruct (fault E SiteAddDocuments) as [e2|] eqn:Hadd;
    destruct (fault E SiteFromDocuments) as [e3|] eqn:Hfrom;
    destruct (fault E SiteFromDocumentsFallback) as [e4|] eqn:Hfallback;
    run_store; intros Hsome; try discriminate Hsome;
    now injection Hsome as <-.
Qed.

(** The test [if not vector_store:] reads the collection and changes
    nothing. *)
Lemma not_vector_store_outcome vector_store d :
  not_vector_store vector_store d
  = mkOutcome
      (Ok (match vector_store with
           | None => true
           | Some store =>
               negb (truthy (collection_of d (persist_directory store)
                               (collection_name store)))
           end))
      d [].
Proof.
  destruct vector_store as [store|]; [|reflexivity].
  unfold not_vector_store, Chroma_len. run_monad.
  now destruct (collection_of d (persist_directory store) (collection_name store)).
Qed.

(** The start-up from the store step on, when the embedding model loads,
    the loaders are made, the store opens and the chunks are added. *)
Lemma initialize_rag_chain_past_the_store E d :
  fault E SiteHuggingFaceEmbeddings = None ->
  loaders_constructed E (PRODUCT_DOCS_DIR (PROJECT_ROOT E)) ->
  fault E SiteChroma = None ->
  (corpus_chunks E = [] \/ fault E SiteAddDocuments = None) ->
  let o := initialize_rag_chain E d in
  let path := CHROMA_DB_PATH (PROJECT_ROOT E) in
  let stored := app_collection E d ++ corpus_chunks E in
  res o
  = Ok (if truthy stored
        then match fault E SiteRetrieverChroma, fault E SiteOllama with
             | None, None => Some (configured_chain E)
             | _, _ => None
             end
        else None)
  /\ trace o
     = store_trace E
         ++ (if truthy stored
             then EvChroma path CHROMA_COLLECTION_NAME
                  :: (match fault E SiteRetrieverChroma with
                      | None => [EvAsRetriever TOP_K_RETRIEVAL;
                                 EvOllama OLLAMA_BASE_URL OLLAMA_MODEL_NAME]
                      | Some _ => []
                      end)
             else [])
  /\ forall p n,
       collection_of (disk_after o) p n
       = if decide (p = path /\ n = CHROMA_COLLECTION_NAME)
         then stored
         else collection_of d p n.
Proof.
  intros Hhf Hmade Hopen Hadd o path stored. subst o.
  unfold initialize_rag_chain, store_trace.
  pose proof (get_embedding_model_outcome E d) as Hemb. rewrite Hhf in Hemb.
  rewrite (bind_outcome _ _ _ _ _ _ Hemb). cbv beta iota.
  rewrite (bind_outcome _ _ _ _ _ _ (get_processed_documents_outcome E d Hmade)).
  cbv beta.
  destruct (get_or_create_opens_and_adds E (corpus_chunks E)
              (mkEmbeddings EMBEDDING_MODEL_NAME "cpu" false)
              path CHROMA_COLLECTION_NAME d Hopen Hadd)
    as (Hres & Htrace & Hcoll).
  fold path. rewrite (bind_step _ _ _ _ Hres). cbv beta iota.
  rewrite Htrace.
  set (d1 := disk_after (get_or_create_vector_store E (corpus_chunks E) _
                           path CHROMA_COLLECTION_NAME false d)) in *.
  rewrite (bind_outcome _ _ _ _ _ _ (not_vector_store_outcome _ d1)).
  cbn [persist_directory collection_name].
  assert (Hstored : collection_of d1 path CHROMA_COLLECTION_NAME = stored)
    by (rewrite Hcoll; now rewrite decide_True).
  rewrite Hstored.
  destruct (truthy stored); cbn [negb].
  2: { cbn [res disk_after trace ret]. split; [reflexivity|]. split.
       - now rewrite <- !app_assoc, !app_nil_r.
       - intros p n. rewrite Hcoll. now fold stored. }
  pose proof (get_vector_store_retriever_outcome E
                (mkEmbeddings EMBEDDING_MODEL_NAME "cpu" false)
                path CHROMA_COLLECTION_NAME TOP_K_RETRIEVAL d1) as Hretriever.
  destruct (fault E SiteRetrieverChroma) as [e|].
  - rewrite (bind_outcome _ _ _ _ _ _ Hretriever). cbv beta iota.
    cbn [res disk_after trace ret].
    split; [reflexivity|]. split.
    + now rewrite <- !app_assoc.
    + intros p n. rewrite Hcoll. now fold stored.
  - rewrite (bind_outcome _ _ _ _ _ _ Hretriever). cbv beta iota.
    rewrite (bind_outcome _ _ _ _ _ _ (Ollama_init_guarded_outcome E _)).
    cbv beta.
    assert (Hsame : forall p n,
               collection_of
                 (set_collection d1 path CHROMA_COLLECTION_NAME
                    (collection_of d1 path CHROMA_COLLECTION_NAME)) p n
               = if decide (p = path /\ n = CHROMA_COLLECTION_NAME)
                 then stored
                 else collection_of d p n).
    { intros p n. rewrite collection_of_set_collection.
      destruct (decide (p = path /\ n = CHROMA_COLLECTION_NAME)) as [[-> ->]|];
        [exact Hstored|].
      rewrite Hcoll. now rewrite decide_False. }
    destruct (fault E SiteOllama) as [e|]; cbn [res disk_after trace ret];
      (split; [reflexivity|]); (split; [now rewrite <- !app_assoc|]);
      exact Hsame.
Qed.

(** X9: when no library call raises, the start-up calls the libraries in
    the order embedding model, corpus, store, and the application's
    collection ends up with its old records followed by the chunks of the
    corpus, every other collection being as before.  When that collection
    holds a record, the start-up goes on to the retriever and the model
    client and returns the chain made of the configured retriever (top 5
    of the application's collection), the configured template and the
    configured model.  When it holds none, an empty corpus on an empty
    store, the test [if not vector_store:] takes the store for missing and
    the start-up returns [None] there. *)
Theorem startup_without_faults (E : Env) (d : Disk) :
  (forall s, fault E s = None) ->
  let stored := app_collection E d ++ corpus_chunks E in
  res (initialize_rag_chain E d)
  = Ok (if truthy stored then Some (configured_chain E) else None)
  /\ trace (initialize_rag_chain E d)
     = store_trace E ++ (if truthy stored then chain_trace E else [])
  /\ app_collection E (disk_after (initialize_rag_chain E d)) = stored
  /\ forall p n,
       ~ (p = CHROMA_DB_PATH (PROJECT_ROOT E) /\ n = CHROMA_COLLECTION_NAME) ->
       collection_of (disk_after (initialize_rag_chain E d)) p n
       = collection_of d p n.
Proof.
  intros Hok stored.
  destruct (initialize_rag_chain_past_the_store E d
              (Hok _) (no_loader_fault _ _ (fun loader => Hok _)) (Hok _)
              (or_intror (Hok _)))
    as (Hres & Htrace & Hcoll).
  rewrite (Hok SiteRetrieverChroma), (Hok SiteOllama) in Hres.
  rewrite (Hok SiteRetrieverChroma) in Htrace.
  split; [exact Hres|]. split; [exact Htrace|]. split.
  - unfold app_collection. rewrite Hcoll. now rewrite decide_True.
  - intros p n Hne. rewrite Hcoll. now rewrite decide_False.
Qed.

Lemma restarts_collection E n d :
  (forall s, fault E s = None) ->
  app_collection E (restarts E n d)
  = app_collection E d ++ concat (replicate n (corpus_chunks E)).
Proof.
  intros Hok. induction n as [|n IH].
  - cbn. now rewrite app_nil_r.
  - unfold restarts in *. cbn [Nat.iter].
    destruct (initialize_rag_chain_past_the_store E
                (Nat.iter n (fun d' => disk_after (initialize_rag_chain E d')) d)
                (Hok _) (no_loader_fault _ _ (fun loader => Hok _)) (Hok _)
                (or_intror (Hok _)))
      as (_ & _ & Hcoll).
    unfold app_collection in *. rewrite Hcoll, decide_True by done.
    rewrite IH, <- app_assoc. f_equal.
    rewrite replicate_S_end, concat_app. cbn [concat].
    now rewrite app_nil_r.
Qed.

(** X10: every start of the program adds the chunks of the corpus to the
    application's collection again: after [n] starts in which nothing
    raises, the collection holds what it held before followed by [n]
    copies of the chunks, so it grows by [n] times their number. *)
Theorem every_start_adds_the_corpus_again (E : Env) (n : nat) (d : Disk) :
  (forall s, fault E s = None) ->
  app_collection E (restarts E n d)
  = app_collection E d ++ concat (replicate n (corpus_chunks E))
  /\ length (app_collection E (restarts E n d))
     = length (app_collection E d) + n * length (corpus_chunks E).
Proof.
  intros Hok. rewrite (restarts_collection E n d Hok).
  split; [reflexivity|].
  rewrite length_app. f_equal.
  induction n as [|n IH]; [reflexivity|].
  cbn [replicate concat]. rewrite length_app, IH. reflexivity.
Qed.

(** X11: a start-up is not undone when it fails late: if the corpus was
    loaded and the store step went through, and then the retriever or the
    model client cannot be made, [initialize_rag_chain] returns [None],
    and the chunks stay added to the application's collection. *)
Theorem late_startup_failure_keeps_the_added_chunks (E : Env) (d : Disk) :
  fault E SiteHuggingFaceEmbeddings = None ->
  loaders_constructed E (PRODUCT_DOCS_DIR (PROJECT_ROOT E)) ->
  fault E SiteChroma = None ->
  (corpus_chunks E = [] \/ fault E SiteAddDocuments = None) ->
  (is_Some (fault E SiteRetrieverChroma) \/ is_Some (fault E SiteOllama)) ->
  res (initialize_rag_chain E d) = Ok None
  /\ app_collection E (disk_after (initialize_rag_chain E d))
     = app_collection E d ++ corpus_chunks E.
Proof.
  intros Hhf Hmade Hopen Hadd Hlate.
  destruct (initialize_rag_chain_past_the_store E d Hhf Hmade Hopen Hadd)
    as (Hres & _ & Hcoll).
  split.
  - rewrite Hres. destruct (truthy _); [|reflexivity].
    destruct Hlate as [[e He]|[e He]]; rewrite He;
      [reflexivity | now destruct (fault E SiteRetrieverChroma)].
  - unfold app_collection. rewrite Hcoll. now rewrite decide_True.
Qed.

(** X12: how a start-up that returns got there.  It returns a chain only
    when the embedding model, the retriever and the model client were
    made and the application's collection holds a record, and the chain
    is then the configured one; it returns [None] only when the embedding
    model, the retriever or the model client could not be made, when the
    store could not be opened and the corpus gave no chunk, or when the
    application's collection holds no record. *)
Theorem startup_outcomes (E : Env) (d : Disk) :
  match res (initialize_rag_chain E d) with
  | Ok (Some c) =>
      c = configured_chain E
      /\ fault E SiteHuggingFaceEmbeddings = None
      /\ fault E SiteRetrieverChroma = None
      /\ fault E SiteOllama = None
      /\ app_collection E (disk_after (initialize_rag_chain E d)) <> []
  | Ok None =>
      is_Some (fault E SiteHuggingFaceEmbeddings)
      \/ (corpus_chunks E = [] /\ is_Some (fault E SiteChroma))
      \/ app_collection E (disk_after (initialize_rag_chain E d)) = []
      \/ is_Some (fault E SiteRetrieverChroma)
      \/ is_Some (fault E SiteOllama)
  | Raise _ => True
  end.
Proof.
  unfold initialize_rag_chain.
  rewrite (bind_outcome _ _ _ _ _ _ (get_embedding_model_outcome E d)).
  destruct (fault E SiteHuggingFaceEmbeddings) as [e|] eqn:Hhf; cbv beta iota.
  { cbn [res ret]. left. eauto. }
  destruct (first_fault E (files_of E (PRODUCT_DOCS_DIR (PROJECT_ROOT E))))
    as [e|] eqn:Hmade.
  { rewrite (bind_raised _ _ _ _ _ _ (get_processed_documents_raises E d e Hmade)).
    exact I. }
  rewrite (bind_outcome _ _ _ _ _ _ (get_processed_documents_outcome E d Hmade)).
  cbv beta. cbn [res disk_after].
  destruct (res (get_or_create_vector_store E (corpus_chunks E)
                   (mkEmbeddings EMBEDDING_MODEL_NAME "cpu" false)
                   (CHROMA_DB_PATH (PROJECT_ROOT E)) CHROMA_COLLECTION_NAME
                   false d)) as [[store|]|e] eqn:Hstore.
  - rewrite (bind_step _ _ _ _ Hstore). cbv beta iota. cbn [res disk_after].
    apply get_or_create_some_inv in Hstore as ->.
    rewrite (bind_outcome _ _ _ _ _ _ (not_vector_store_outcome _ _)).
    cbn [persist_directory collection_name].
    match goal with
    | |- context [collection_of ?d1 (CHROMA_DB_PATH _) CHROMA_COLLECTION_NAME] =>
        set (disk := d1)
    end.
    destruct (collection_of disk (CHROMA_DB_PATH (PROJECT_ROOT E))
                CHROMA_COLLECTION_NAME) as [|record records] eqn:Hrecords.
    { cbn [truthy negb res disk_after ret]. right. right. left. exact Hrecords. }
    cbn [truthy negb].
    pose proof (get_vector_store_retriever_outcome E
                  (mkEmbeddings EMBEDDING_MODEL_NAME "cpu" false)
                  (CHROMA_DB_PATH (PROJECT_ROOT E)) CHROMA_COLLECTION_NAME
                  TOP_K_RETRIEVAL disk) as Hretriever.
    destruct (fault E SiteRetrieverChroma) as [e|] eqn:Hfr.
    + rewrite (bind_outcome _ _ _ _ _ _ Hretriever).
      cbv beta iota. cbn [res ret]. right. right. right. left. eauto.
    + rewrite (bind_outcome _ _ _ _ _ _ Hretriever).
      cbv beta iota.
      rewrite (bind_outcome _ _ _ _ _ _ (Ollama_init_guarded_outcome E _)).
      cbv beta.
      destruct (fault E SiteOllama) as [e|] eqn:Hllm;
        cbn [res disk_after ret].
      * right. right. right. right. eauto.
      * repeat split; try reflexivity.
        unfold app_collection. rewrite collection_of_set_same, Hrecords.
        discriminate.
  - rewrite (bind_step _ _ _ _ Hstore). cbv beta iota.
    rewrite (bind_outcome _ _ _ _ _ _ (not_vector_store_outcome _ _)).
    cbn [res ret]. right. left. now apply get_or_create_none_inv in Hstore.
  - rewrite (bind_raise _ _ _ _ Hstore). exact I.
Qed.

(* ===================================================================== *)
(** ** Further properties: the chat application                            *)
(* ===================================================================== *)

Lemma rag_chain_stream_trace E c question d :
  Forall (fun ev => is_query_event ev = true)
         (stream_trace (rag_chain_stream E c question d)).
Proof.
  unfold rag_chain_stream. rewrite chain_prompt_value_outcome.
  cbn [res trace].
  destruct (res (retriever_invoke E (chain_retriever c) question d)) as [docs|e];
    [|repeat constructor].
  destruct (format _ _) as [message|e]; [|repeat constructor].
  destruct (llm_stream E (chain_llm c) (to_string message))
    as [fragments error].
  repeat constructor.
Qed.

Lemma respond_trace E rag_chain prompt d :
  Forall (fun ev => is_query_event ev = true) (respond E rag_chain prompt d).2.
Proof.
  unfold respond. destruct rag_chain as [c|]; [|constructor].
  destruct (stream_error (rag_chain_stream E c prompt d));
    apply rag_chain_stream_trace.
Qed.

(** One run with something memoised. *)
Lemma run_script_memoised E a v history d :
  let r := run_script E a (mkAppState (Some v) history) d in
  run_disk r = d
  /\ cache_resource (state_after r) = Some v
  /\ uncaught r = None
  /\ Forall (fun ev => is_query_event ev = true) (run_trace r)
  /\ (exists history', state_after r = mkAppState (Some v) history')
  /\ length (match reply r with Some text => [text] | None => [] end)
     = length (questions [(E, a)]).
Proof.
  unfold run_script. cbn [cache_resource messages].
  rewrite cached_setup_hit. cbn [res disk_after trace].
  destruct a as [|prompt|]; cbn [questions].
  - repeat split; eauto.
  - destruct (String.eqb prompt EmptyString); [repeat split; eauto|].
    pose proof (respond_trace E v prompt d) as Htrace.
    destruct (respond E v prompt d) as [full_response calls].
    repeat split; eauto.
  - repeat split; eauto.
Qed.

Lemma init_attempts_query_events t :
  Forall (fun ev => is_query_event ev = true) t -> init_attempts t = 0.
Proof.
  unfold init_attempts. induction 1 as [|ev t Hev _ IH]; [reflexivity|].
  cbn [List.filter]. destruct ev; try discriminate Hev; exact IH.
Qed.

Lemma run_session_memoised runs v history d :
  session_disk (run_session runs (mkAppState (Some v) history) d) = d
  /\ cache_resource
       (session_state (run_session runs (mkAppState (Some v) history) d))
     = Some v.
Proof.
  revert history. induction runs as [|[E a] runs IH]; intros history.
  - split; reflexivity.
  - cbn [run_session session_disk session_state].
    destruct (run_script_memoised E a v history d)
      as (Hdisk & _ & _ & _ & (history' & Hstate) & _).
    rewrite Hdisk, Hstate. apply IH.
Qed.

(** X13: once a value is memoised, be it a chain or [None], no later run
    of the script writes to the disk or starts the initialisation again:
    over any later runs the only library calls are searches and model
    calls, and the memoised value stays. *)
Theorem memoised_sessions_only_query
    (runs : list (Env * Action)) (v : option RagChain)
    (history : list Message) (d : Disk) :
  let out := run_session runs (mkAppState (Some v) history) d in
  session_disk out = d
  /\ cache_resource (session_state out) = Some v
  /\ Forall (fun ev => is_query_event ev = true) (session_trace out)
  /\ init_attempts (session_trace out) = 0.
Proof.
  revert history. induction runs as [|[E a] runs IH]; intros history.
  - cbn. repeat split; constructor.
  - cbn [run_session].
    destruct (run_script_memoised E a v history d)
      as (Hdisk & _ & _ & Htrace & (history' & Hstate) & _).
    rewrite Hdisk, Hstate.
    destruct (IH history') as (Hd & Hc & Ht & _).
    cbn [session_disk session_state session_trace].
    assert (Hall : Forall (fun ev => is_query_event ev = true)
                     (run_trace (run_script E a (mkAppState (Some v) history) d)
                        ++ session_trace
                             (run_session runs (mkAppState (Some v) history') d)))
      by (apply Forall_app; now split).
    repeat split; try assumption.
    now apply init_attempts_query_events.
Qed.

(** X15: with a ready chain, a question whose retrieval and model call go
    through is answered with the fragments of the model put together in
    order; the run makes one search with the chain's [k] and one model
    call, and appends the question and that answer to the history. *)
Theorem answered_question_is_the_joined_fragments
    (E : Env) (c : RagChain) (question : string) (history : list Message)
    (d : Disk) (prompt_value : string) (fragments : list string) :
  question <> EmptyString ->
  res (chain_prompt_value E c question d) = Ok prompt_value ->
  llm_stream E (chain_llm c) prompt_value = (fragments, None) ->
  run_script E (ChatInput question) (mkAppState (Some (Some c)) history) d
  = mkRun
      (mkAppState (Some (Some c))
         ((history ++ [mkMessage "user" question])
            ++ [mkMessage "assistant" (String.concat EmptyString fragments)]))
      d
      [EvSearch question (retriever_k (chain_retriever c)); EvLlm prompt_value]
      (Some (String.concat EmptyString fragments))
      None.
Proof.
  intros Hne Hprompt Hllm.
  unfold run_script. cbn [cache_resource messages].
  rewrite cached_setup_hit. cbn [res disk_after trace].
  apply String.eqb_neq in Hne. rewrite Hne.
  unfold respond. rewrite (rag_chain_stream_outcome _ _ _ _ _ Hprompt).
  rewrite Hllm. cbn [stream_error yielded stream_trace fst snd].
  now rewrite accumulate_concat.
Qed.

Lemma answered_question_is_the_joined_fragments_witness :
  reply (run_script (Sample.env ["1"]) (ChatInput Sample.question)
           (mkAppState (Some (Some Sample.chain)) Sample.history) Sample.store)
  = Some "Product A costs $100.".
Proof.
  rewrite (answered_question_is_the_joined_fragments
             (Sample.env ["1"]) Sample.chain Sample.question Sample.history
             Sample.store
             (human_prompt
                (format_docs
                   [Sample.page "1"; Sample.prices; Sample.faq; Sample.notes])
                Sample.question)
             Sample.answer).
  - reflexivity.
  - discriminate.
  - vm_compute. reflexivity.
  - reflexivity.
Defined.

(** X16: with a ready chain, when the retriever raises [e] the exception is
    caught by the chat handler like a failure of the model: the answer of
    the turn is the error text built from [e], nothing escapes, and the
    model is not called at all. *)
Theorem retrieval_failure_is_inline_and_skips_the_model
    (E : Env) (c : RagChain) (question : string) (history : list Message)
    (d : Disk) (e : string) :
  question <> EmptyString ->
  res (retriever_invoke E (chain_retriever c) question d) = Raise e ->
  let r := run_script E (ChatInput question)
             (mkAppState (Some (Some c)) history) d in
  uncaught r = None
  /\ reply r = Some (error_answer e)
  /\ run_trace r = [EvSearch question (retriever_k (chain_retriever c))]
  /\ prompts_sent (run_trace r) = []
  /\ messages (state_after r)
     = (history ++ [mkMessage "user" question])
         ++ [mkMessage "assistant" (error_answer e)].
Proof.
  intros Hne Hsearch r. subst r.
  unfold run_script. cbn [cache_resource messages].
  rewrite cached_setup_hit. cbn [res disk_after trace].
  apply String.eqb_neq in Hne. rewrite Hne.
  unfold respond, rag_chain_stream.
  rewrite chain_prompt_value_outcome. cbn [res trace]. rewrite Hsearch.
  cbn [stream_error stream_trace]. repeat split.
Qed.

Lemma initialize_rag_chain_first_call E d :
  exists t,
    trace (initialize_rag_chain E d)
    = EvHuggingFaceEmbeddings EMBEDDING_MODEL_NAME :: t.
Proof.
  unfold initialize_rag_chain.
  rewrite (bind_outcome _ _ _ _ _ _ (get_embedding_model_outcome E d)).
  cbn [trace app]. eauto.
Qed.

Lemma cached_setup_miss_trace E d :
  trace (cached_setup_rag_chain E None d) = trace (initialize_rag_chain E d).
Proof.
  unfold cached_setup_rag_chain, bind. rewrite setup_rag_chain_outcome.
  destruct (res (initialize_rag_chain E d)); cbn [trace ret];
    [apply app_nil_r | reflexivity].
Qed.

Lemma run_script_trace_starts_with_setup E a s d :
  exists calls,
    run_trace (run_script E a s d)
    = trace (cached_setup_rag_chain E (cache_resource s) d) ++ calls.
Proof.
  unfold run_script.
  destruct (res (cached_setup_rag_chain E (cache_resource s) d))
    as [[cache rag_chain]|e].
  - destruct a as [|prompt|]; try (exists []; cbn; now rewrite app_nil_r).
    destruct (String.eqb prompt EmptyString);
      [exists []; cbn; now rewrite app_nil_r|].
    destruct (respond E rag_chain prompt _) as [full_response calls].
    now exists calls.
  - exists []. cbn. now rewrite app_nil_r.
Qed.

(** X17: when [initialize_rag_chain] raises instead of returning, the run
    of the script ends with that exception before the chat handler is
    reached: nothing is memoised, the question of that run is neither
    stored nor answered, and the next run, whatever it is, starts the
    initialisation again. *)
Theorem escaped_initialization_is_not_memoised
    (E : Env) (a : Action) (history : list Message) (d : Disk) (e : string) :
  res (initialize_rag_chain E d) = Raise e ->
  let r := run_script E a (mkAppState None history) d in
  uncaught r = Some e
  /\ reply r = None
  /\ state_after r = mkAppState None history
  /\ forall E' a',
       firstn 1 (run_trace (run_script E' a' (state_after r) (run_disk r)))
       = [EvHuggingFaceEmbeddings EMBEDDING_MODEL_NAME].
Proof.
  intros Hinit r.
  assert (Hr : r = mkRun (mkAppState None history)
                     (disk_after (initialize_rag_chain E d))
                     (trace (initialize_rag_chain E d)) None (Some e)).
  { subst r. unfold run_script. cbn [cache_resource].
    unfold cached_setup_rag_chain.
    assert (Hsetup : res (setup_rag_chain E d) = Raise e)
      by now rewrite setup_rag_chain_outcome.
    rewrite (bind_raise _ _ _ _ Hsetup). cbn [res disk_after trace].
    now rewrite setup_rag_chain_outcome. }
  rewrite Hr. cbn [uncaught reply state_after run_disk].
  repeat split. intros E' a'.
  destruct (run_script_trace_starts_with_setup E' a' (mkAppState None history)
              (disk_after (initialize_rag_chain E d))) as [calls ->].
  cbn [cache_resource]. rewrite cached_setup_miss_trace.
  destruct (initialize_rag_chain_first_call E'
              (disk_after (initialize_rag_chain E d))) as [t ->].
  reflexivity.
Qed.

Lemma escaped_initialization_is_not_memoised_witness :
  uncaught (run_script Sample.env_chroma_down (ChatInput Sample.question)
              (mkAppState None []) ∅)
  = Some "database is locked"
  /\ init_attempts
       (run_trace
          (run_script (Sample.env ["1"]) NoInput
             (state_after
                (run_script Sample.env_chroma_down (ChatInput Sample.question)
                   (mkAppState None []) ∅))
             (run_disk
                (run_script Sample.env_chroma_down (ChatInput Sample.question)
                   (mkAppState None []) ∅))))
     = 1.
Proof.
  destruct (escaped_initialization_is_not_memoised
              Sample.env_chroma_down (ChatInput Sample.question) [] ∅
              "database is locked")
    as (Huncaught & _ & _ & _).
  - vm_compute. reflexivity.
  - split; [exact Huncaught | vm_compute; reflexivity].
Defined.

Lemma retrieval_failure_is_inline_and_skips_the_model_witness :
  reply (run_script Sample.env_search_down (ChatInput Sample.question)
           (mkAppState (Some (Some Sample.chain)) Sample.history) Sample.store)
  = Some "An error occurred: index unavailable. Please check the console and ensure Ollama is running.".
Proof.
  destruct (retrieval_failure_is_inline_and_skips_the_model
              Sample.env_search_down Sample.chain Sample.question
              Sample.history Sample.store "index unavailable")
    as (_ & Hreply & _).
  - discriminate.
  - reflexivity.
  - exact Hreply.
Defined.

(* ===================================================================== *)
(** ** The further properties on the sample environments                   *)
(* ===================================================================== *)



Lemma get_or_create_falls_back_to_from_documents_witness :
  collection_of
    (disk_after
       (get_or_create_vector_store Sample.env_store_locked [Sample.prices]
          Sample.embedding "/db" "things" false Sample.small_store))
    "/db" "things"
  = [Sample.faq; Sample.prices].
Proof.
  destruct (get_or_create_falls_back_to_from_documents
              Sample.env_store_locked [Sample.prices] Sample.embedding
              "/db" "things" Sample.small_store "database is locked")
    as (_ & _ & Hstore).
  - discriminate.
  - left. reflexivity.
  - reflexivity.
  - etrans; [exact Hstore | vm_compute; reflexivity].
Defined.

Lemma startup_without_faults_witness :
  res (initialize_rag_chain (Sample.env ["1"]) ∅) = Ok (Some Sample.chain)
  /\ app_collection (Sample.env ["1"])
       (disk_after (initialize_rag_chain (Sample.env ["1"]) ∅))
     = [Sample.page "1"; Sample.prices; Sample.faq; Sample.notes]
  /\ res (initialize_rag_chain Sample.env_no_supported ∅) = Ok None.
Proof.
  destruct (startup_without_faults (Sample.env ["1"]) ∅)
    as (Hres & _ & Hstore & _); [reflexivity|].
  destruct (startup_without_faults Sample.env_no_supported ∅)
    as (Hnone & _); [reflexivity|].
  split; [etrans; [exact Hres | vm_compute; reflexivity]|].
  split; [etrans; [exact Hstore | vm_compute; reflexivity]|].
  etrans; [exact Hnone | vm_compute; reflexivity].
Defined.

Lemma every_start_adds_the_corpus_again_witness :
  length (app_collection (Sample.env ["1"])
            (restarts (Sample.env ["1"]) 3 Sample.store)) = 16.
Proof.
  destruct (every_start_adds_the_corpus_again (Sample.env ["1"]) 3 Sample.store)
    as (_ & Hlength).
  - reflexivity.
  - etrans; [exact Hlength | vm_compute; reflexivity].
Defined.

Lemma late_startup_failure_keeps_the_added_chunks_witness :
  res (initialize_rag_chain Sample.env_no_ollama ∅) = Ok None
  /\ app_collection Sample.env_no_ollama
       (disk_after (initialize_rag_chain Sample.env_no_ollama ∅))
     = [Sample.page "1"; Sample.prices; Sample.faq; Sample.notes].
Proof.
  destruct (late_startup_failure_keeps_the_added_chunks
              Sample.env_no_ollama ∅) as (Hres & Hstore).
  - reflexivity.
  - reflexivity.
  - reflexivity.
  - right. reflexivity.
  - right. eexists. reflexivity.
  - split; [exact Hres|].
    etrans; [exact Hstore | vm_compute; reflexivity].
Defined.

(* ===================================================================== *)
(** ** Further properties: the command line loop                           *)
(* ===================================================================== *)

Lemma searched_app t1 t2 : searched (t1 ++ t2) = searched t1 ++ searched t2.
Proof.
  induction t1 as [|ev t1 IH]; [reflexivity|].
  destruct ev; cbn; now rewrite ?IH.
Qed.

(** A blocking call of the chain searches once, for the question, and
    leaves the disk alone, whether it returns or raises. *)
Lemma rag_chain_invoke_search E c question d :
  disk_after (rag_chain_invoke E c question d) = d
  /\ searched (trace (rag_chain_invoke E c question d)) = [question].
Proof.
  unfold rag_chain_invoke.
  destruct (res (chain_prompt_value E c question d)) as [prompt_value|e]
    eqn:Hprompt.
  - rewrite (bind_outcome _ _ _ _ _ _
               (chain_prompt_value_ok _ _ _ _ _ Hprompt)).
    destruct (llm_invoke E (chain_llm c) prompt_value) as [text|e];
      run_monad; split; reflexivity.
  - rewrite (bind_raise _ _ _ _ Hprompt).
    rewrite chain_prompt_value_outcome. split; reflexivity.
Qed.

(** X18: the loop ends at the first line that reads [exit] in any letter
    case, without an exception, and what was typed after that line is
    never read: the lines printed, the library calls and the disk are
    those of the lines up to it. *)
Theorem chat_loop_stops_at_exit
    (c : RagChain) (before after : list (Env * string)) (E : Env)
    (line : string) (d : Disk) :
  str_lower line = "exit" ->
  chat_loop c (before ++ (E, line) :: after) d
  = chat_loop c (before ++ [(E, line)]) d
  /\ cli_uncaught (chat_loop c (before ++ (E, line) :: after) d) = None.
Proof.
  intros Hexit. apply String.eqb_eq in Hexit.
  revert d. induction before as [|[E' line'] before IH]; intros d.
  - cbn [app chat_loop]. rewrite Hexit. split; reflexivity.
  - cbn [app chat_loop].
    destruct (String.eqb (str_lower line') "exit"); [split; reflexivity|].
    cbv zeta. destruct (IH (disk_after (rag_chain_invoke E' c line' d)))
      as [Hsame Hnone].
    split; [now rewrite Hsame | exact Hnone].
Qed.

Lemma chat_loop_stops_at_exit_witness :
  chat_loop Sample.chain Sample.typed Sample.store
  = chat_loop Sample.chain
      [(Sample.env ["1"], Sample.question);
       (Sample.env_llm_down, "And product B?");
       (Sample.env ["1"], "Exit")]
      Sample.store.
Proof.
  apply (chat_loop_stops_at_exit Sample.chain
           [(Sample.env ["1"], Sample.question);
            (Sample.env_llm_down, "And product B?")]
           [(Sample.env ["1"], "never read")]
           (Sample.env ["1"]) "Exit" Sample.store).
  reflexivity.
Defined.

Lemma chat_loop_searched c inputs d :
  searched (cli_trace (chat_loop c inputs d)) = map snd (before_exit inputs).
Proof.
  revert d. induction inputs as [|[E line] inputs IH]; intros d;
    [reflexivity|].
  cbn [chat_loop before_exit].
  destruct (String.eqb (str_lower line) "exit"); [reflexivity|].
  cbv zeta. cbn [cli_trace map snd]. rewrite searched_app, IH.
  destruct (rag_chain_invoke_search E c line d) as [_ ->]. reflexivity.
Qed.

Lemma chat_loop_disk c inputs d : cli_disk (chat_loop c inputs d) = d.
Proof.
  revert d. induction inputs as [|[E line] inputs IH]; intros d;
    [reflexivity|].
  cbn [chat_loop].
  destruct (String.eqb (str_lower line) "exit"); [reflexivity|].
  cbv zeta. cbn [cli_disk]. rewrite IH.
  now destruct (rag_chain_invoke_search E c line d) as [-> _].
Qed.

Lemma chat_loop_uncaught c inputs d :
  cli_uncaught (chat_loop c inputs d)
  = if types_exit inputs then None else Some "EOFError".
Proof.
  revert d. induction inputs as [|[E line] inputs IH]; intros d;
    [reflexivity|].
  cbn [chat_loop types_exit existsb snd].
  destruct (String.eqb (str_lower line) "exit"); [reflexivity|].
  cbv zeta. cbn [cli_uncaught orb]. apply IH.
Qed.

(** X19: every line typed before the first [exit] is put to the chain,
    once and in order, whether the calls before it returned or raised; the
    loop never writes to the disk; and when the lines run out without an
    [exit], the program ends with the [EOFError] of [input]. *)
Theorem chat_loop_asks_every_line_before_exit
    (c : RagChain) (inputs : list (Env * string)) (d : Disk) :
  searched (cli_trace (chat_loop c inputs d)) = map snd (before_exit inputs)
  /\ cli_disk (chat_loop c inputs d) = d
  /\ cli_uncaught (chat_loop c inputs d)
     = if types_exit inputs then None else Some "EOFError".
Proof.
  split; [|split].
  - apply chat_loop_searched.
  - apply chat_loop_disk.
  - apply chat_loop_uncaught.
Qed.

Lemma searched_loads loaders : searched (map EvLoad loaders) = [].
Proof. induction loaders as [|l loaders IH]; [reflexivity | exact IH]. Qed.

Lemma searched_startup_trace E : searched (startup_trace E) = [].
Proof.
  unfold startup_trace, store_trace, chain_trace, corpus_trace. cbv zeta.
  rewrite !searched_app. cbn [searched app].
  rewrite !searched_app, searched_loads.
  destruct (truthy (documents_of_files E _)); destruct (truthy (corpus_chunks E));
    reflexivity.
Qed.

(** X20: run as a script, the program starts up and then, when nothing
    raised in the start-up and the collection holds a record once the
    chunks of the corpus are added, prints the invitation to type [exit]
    and puts every line typed before the first [exit] to the chain; when
    the start-up returned no chain it prints one line and ends without
    reading any input and without an exception. *)
Theorem rag_chain_main_answers_until_exit
    (E : Env) (inputs : list (Env * string)) (d : Disk) :
  ((forall s, fault E s = None) ->
   app_collection E d ++ corpus_chunks E <> [] ->
   hd_error (printed (rag_chain_main E inputs d)) = Some TYPE_EXIT
   /\ searched (cli_trace (rag_chain_main E inputs d))
      = map snd (before_exit inputs)
   /\ app_collection E (cli_disk (rag_chain_main E inputs d))
      = app_collection E d ++ corpus_chunks E
   /\ cli_uncaught (rag_chain_main E inputs d)
      = if types_exit inputs then None else Some "EOFError")
  /\ (res (initialize_rag_chain E d) = Ok None ->
      rag_chain_main E inputs d = rag_chain_main E [] d
      /\ printed (rag_chain_main E inputs d) = [NOT_INITIALIZED_CLI]
      /\ cli_uncaught (rag_chain_main E inputs d) = None).
Proof.
  split.
  - intros Hok Hstored.
    destruct (initialize_rag_chain_past_the_store E d
                (Hok _) (no_loader_fault _ _ (fun loader => Hok _)) (Hok _)
                (or_intror (Hok _)))
      as (Hres & Htrace & Hcoll).
    rewrite (Hok SiteRetrieverChroma), (Hok SiteOllama) in Hres.
    rewrite (Hok SiteRetrieverChroma) in Htrace.
    destruct (app_collection E d ++ corpus_chunks E) as [|record records]
      eqn:Hrecords; [done|].
    cbn [truthy] in Hres, Htrace.
    unfold rag_chain_main. rewrite Hres. cbv zeta.
    cbn [printed cli_trace cli_disk cli_uncaught hd_error].
    split; [reflexivity|].
    pose proof (chat_loop_searched (configured_chain E) inputs
                  (disk_after (initialize_rag_chain E d))) as Hsearched.
    pose proof (chat_loop_disk (configured_chain E) inputs
                  (disk_after (initialize_rag_chain E d))) as Hdisk.
    pose proof (chat_loop_uncaught (configured_chain E) inputs
                  (disk_after (initialize_rag_chain E d))) as Huncaught.
    split; [|split].
    + rewrite searched_app, Hsearched.
      rewrite Htrace. fold (chain_trace E). fold (startup_trace E).
      now rewrite searched_startup_trace.
    + rewrite Hdisk. unfold app_collection. rewrite Hcoll.
      now rewrite decide_True.
    + exact Huncaught.
  - intros Hnone. unfold rag_chain_main. rewrite Hnone. repeat split.
Qed.

Lemma rag_chain_main_answers_until_exit_witness :
  searched (cli_trace (rag_chain_main (Sample.env ["1"]) Sample.typed ∅))
  = [Sample.question; "And product B?"]
  /\ printed (rag_chain_main Sample.env_no_embeddings Sample.typed ∅)
     = [NOT_INITIALIZED_CLI].
Proof.
  destruct (rag_chain_main_answers_until_exit (Sample.env ["1"]) Sample.typed ∅)
    as [Hstarted _].
  destruct (rag_chain_main_answers_until_exit
              Sample.env_no_embeddings Sample.typed ∅) as [_ Hfailed].
  split.
  - destruct Hstarted as (_ & Hsearched & _);
      [reflexivity | vm_compute; discriminate |].
    etrans; [exact Hsearched | reflexivity].
  - destruct Hfailed as (_ & Hprinted & _); [vm_compute; reflexivity|].
    exact Hprinted.
Defined.

(* ===================================================================== *)
(** ** Further properties: dispatch on the file name                       *)
(* ===================================================================== *)

Lemma append_cons c (a b : string) : String c a +:+ b = String c (a +:+ b).
Proof. reflexivity. Qed.

Lemma length_append (a b : string) :
  String.length (a +:+ b) = String.length a + String.length b.
Proof.
  induction a as [|c a IH]; [reflexivity|].
  rewrite append_cons. cbn [String.length]. now rewrite IH.
Qed.

Lemma substring_all (t : string) :
  String.substring 0 (String.length t) t = t.
Proof. induction t as [|c t IH]; [reflexivity|]. cbn. now rewrite IH. Qed.

Lemma substring_skip (a t : string) m :
  String.substring (String.length a) m (a +:+ t) = String.substring 0 m t.
Proof.
  induction a as [|c a IH]; [reflexivity|].
  rewrite append_cons. cbn [String.length String.substring]. exact IH.
Qed.

Lemma substring_split (s : string) k :
  k <= String.length s ->
  s = String.substring 0 k s
        +:+ String.substring k (String.length s - k) s.
Proof.
  revert k. induction s as [|c s IH]; intros k Hk.
  - cbn in Hk. assert (k = 0) as -> by lia. reflexivity.
  - destruct k as [|k].
    + cbn [String.substring]. rewrite Nat.sub_0_r.
      change (String c s = String.substring 0 (String.length (String c s))
                             (String c s)).
      now rewrite substring_all.
    + cbn [String.length] in *. cbn [String.substring Nat.sub].
      rewrite append_cons. f_equal. apply IH. lia.
Qed.

Lemma endswith_app_same_length (stem t t' : string) :
  String.length t' = String.length t ->
  endswith (stem +:+ t) t' = String.eqb t t'.
Proof.
  intros Hlen. unfold endswith. rewrite length_append, Hlen.
  replace (String.length t <=? String.length stem + String.length t)
    with true by (symmetry; apply Nat.leb_le; lia).
  replace (String.length stem + String.length t - String.length t)
    with (String.length stem) by lia.
  now rewrite substring_skip, substring_all.
Qed.

Lemma endswith_app (stem suffix : string) :
  endswith (stem +:+ suffix) suffix = true.
Proof.
  rewrite endswith_app_same_length by reflexivity. apply String.eqb_refl.
Qed.

Lemma endswith_inv (s suffix : string) :
  endswith s suffix = true -> exists stem, s = stem +:+ suffix.
Proof.
  unfold endswith. intros [Hle Heq]%andb_prop.
  apply Nat.leb_le in Hle. apply String.eqb_eq in Heq.
  exists (String.substring 0 (String.length s - String.length suffix) s).
  pose proof (substring_split s (String.length s - String.length suffix))
    as Hsplit.
  replace (String.length s - (String.length s - String.length suffix))
    with (String.length suffix) in Hsplit by lia.
  rewrite Heq in Hsplit. apply Hsplit. lia.
Qed.

Lemma endswith_tail (s a b : string) :
  endswith s (a +:+ b) = true -> endswith s b = true.
Proof.
  intros [stem ->]%endswith_inv. rewrite <- append_assoc. apply endswith_app.
Qed.

Lemma endswith_other_tail (stem t a b : string) :
  String.length b = String.length t ->
  String.eqb t b = false ->
  endswith (stem +:+ t) (a +:+ b) = false.
Proof.
  intros Hlen Hneq.
  destruct (endswith (stem +:+ t) (a +:+ b)) eqn:Hends; [|reflexivity].
  apply endswith_tail in Hends.
  rewrite endswith_app_same_length in Hends by exact Hlen. congruence.
Qed.

(** X21: which loader a file gets depends on the end of its name alone:
    every name ending in [.pdf] gets the PDF loader, every name ending in
    [.txt] the text loader with UTF-8, every name ending in [.md] or
    [.markdown] the markdown loader, each on the path given; and a file
    gets a loader only if its name ends in one of these four. *)
Theorem select_loader_by_suffix :
  (forall stem p, select_loader (stem +:+ ".pdf") p = Some (PyPDFLoader p))
  /\ (forall stem p,
        select_loader (stem +:+ ".txt") p = Some (TextLoader p "utf-8"))
  /\ (forall stem p,
        select_loader (stem +:+ ".md") p = Some (UnstructuredMarkdownLoader p))
  /\ (forall stem p,
        select_loader (stem +:+ ".markdown") p
        = Some (UnstructuredMarkdownLoader p))
  /\ (forall file_name p loader,
        select_loader file_name p = Some loader ->
        exists stem ext,
          file_name = stem +:+ ext
          /\ In ext [".pdf"; ".txt"; ".md"; ".markdown"]).
Proof.
  split; [|split; [|split; [|split]]].
  - intros stem p. unfold select_loader. now rewrite endswith_app.
  - intros stem p. unfold select_loader.
    rewrite (endswith_app_same_length stem ".txt" ".pdf") by reflexivity.
    cbn [String.eqb Ascii.eqb]. now rewrite endswith_app.
  - intros stem p. unfold select_loader.
    assert (Hpdf : endswith (stem +:+ ".md") ".pdf" = false)
      by exact (endswith_other_tail stem ".md" "." "pdf" eq_refl eq_refl).
    assert (Htxt : endswith (stem +:+ ".md") ".txt" = false)
      by exact (endswith_other_tail stem ".md" "." "txt" eq_refl eq_refl).
    now rewrite Hpdf, Htxt, endswith_app.
  - intros stem p. unfold select_loader.
    assert (Hpdf : endswith (stem +:+ ".markdown") ".pdf" = false).
    { change ".markdown" with (".mark" +:+ "down").
      rewrite <- append_assoc.
      now rewrite endswith_app_same_length by reflexivity. }
    assert (Htxt : endswith (stem +:+ ".markdown") ".txt" = false).
    { change ".markdown" with (".mark" +:+ "down").
      rewrite <- append_assoc.
      now rewrite endswith_app_same_length by reflexivity. }
    rewrite Hpdf, Htxt, (endswith_app stem ".markdown").
    now rewrite orb_true_r.
  - intros f p loader. unfold select_loader.
    destruct (endswith f ".pdf") eqn:Hpdf.
    { intros _. apply endswith_inv in Hpdf as [stem ->].
      exists stem, ".pdf". split; [reflexivity | now left]. }
    destruct (endswith f ".txt") eqn:Htxt.
    { intros _. apply endswith_inv in Htxt as [stem ->].
      exists stem, ".txt". split; [reflexivity | right; now left]. }
    destruct (endswith f ".md") eqn:Hmd.
    { intros _. apply endswith_inv in Hmd as [stem ->].
      exists stem, ".md". split; [reflexivity | right; right; now left]. }
    destruct (endswith f ".markdown") eqn:Hmarkdown; [|discriminate].
    intros _. apply endswith_inv in Hmarkdown as [stem ->].
    exists stem, ".markdown".
    split; [reflexivity | right; right; right; now left].
Qed.

Lemma select_loader_by_suffix_witness :
  select_loader "catalogue.v2.pdf" "/docs/catalogue.v2.pdf"
  = Some (PyPDFLoader "/docs/catalogue.v2.pdf")
  /\ exists stem ext,
       "notes.markdown" = stem +:+ ext
       /\ In ext [".pdf"; ".txt"; ".md"; ".markdown"].
Proof.
  destruct select_loader_by_suffix as (Hpdf & _ & _ & _ & Honly).
  split.
  - exact (Hpdf "catalogue.v2" "/docs/catalogue.v2.pdf").
  - apply (Honly "notes.markdown" "/docs/notes.markdown"
             (UnstructuredMarkdownLoader "/docs/notes.markdown")).
    reflexivity.
Defined.

(* ===================================================================== *)
(** ** Further properties: clearing the chat, and the configured paths     *)
(* ===================================================================== *)

Lemma run_session_app runs1 runs2 s d :
  run_session (runs1 ++ runs2) s d
  = mkSession
      (session_state
         (run_session runs2 (session_state (run_session runs1 s d))
            (session_disk (run_session runs1 s d))))
      (session_disk
         (run_session runs2 (session_state (run_session runs1 s d))
            (session_disk (run_session runs1 s d))))
      (session_trace (run_session runs1 s d)
         ++ session_trace
              (run_session runs2 (session_state (run_session runs1 s d))
                 (session_disk (run_session runs1 s d))))
      (replies (run_session runs1 s d)
         ++ replies
              (run_session runs2 (session_state (run_session runs1 s d))
                 (session_disk (run_session runs1 s d))))
      (escaped (run_session runs1 s d)
         ++ escaped
              (run_session runs2 (session_state (run_session runs1 s d))
                 (session_disk (run_session runs1 s d)))).
Proof.
  revert s d. induction runs1 as [|[E a] runs1 IH]; intros s d.
  - cbn [app run_session session_state session_disk session_trace replies
         escaped].
    now destruct (run_session runs2 s d).
  - cbn [app run_session]. rewrite IH.
    cbn [session_state session_disk session_trace replies escaped].
    f_equal.
    + now rewrite app_assoc.
    + destruct (reply (run_script E a s d)); reflexivity.
    + destruct (uncaught (run_script E a s d)); reflexivity.
Qed.

Lemma run_script_failed_or_ready_clear E v history d :
  run_script E ClearChat (mkAppState (Some v) history) d
  = mkRun (mkAppState (Some v) []) d [] None None.
Proof.
  unfold run_script. cbn [cache_resource]. now rewrite cached_setup_hit.
Qed.

(** X22: the Clear Chat button resets the session and nothing else.  With
    a memoised value, whatever was asked before the click, the history
    after the runs that follow it is the history of a fresh session that
    made those runs, the replies to them are the replies of that fresh
    session, and the disk is untouched. *)
Theorem clear_chat_starts_a_fresh_session
    (runs1 runs2 : list (Env * Action)) (E : Env) (v : option RagChain)
    (history : list Message) (d : Disk) :
  let whole :=
    run_session (runs1 ++ (E, ClearChat) :: runs2)
      (mkAppState (Some v) history) d in
  let before := run_session runs1 (mkAppState (Some v) history) d in
  let fresh := run_session runs2 (mkAppState (Some v) []) d in
  session_state whole = session_state fresh
  /\ replies whole = replies before ++ replies fresh
  /\ session_disk whole = d.
Proof.
  intros whole before fresh. subst whole.
  rewrite run_session_app. fold before.
  cbn [session_state replies session_disk].
  destruct (run_session_memoised runs1 v history d)
    as (Hdisk & Hcache). fold before in Hdisk, Hcache.
  destruct (session_state before) as [cache history'] eqn:Hstate.
  cbn [cache_resource] in Hcache. subst cache. rewrite Hdisk.
  cbn [run_session]. rewrite run_script_failed_or_ready_clear.
  cbn [state_after run_disk reply]. fold fresh.
  repeat split. cbn [session_disk]. subst fresh.
  now destruct (run_session_memoised runs2 v [] d) as (-> & _).
Qed.

Lemma prefix_app_cancel (a x y : string) :
  String.prefix (a +:+ x) (a +:+ y) = String.prefix x y.
Proof.
  induction a as [|c a IH]; [reflexivity|].
  rewrite !append_cons. cbn [String.prefix].
  destruct (Ascii.ascii_dec c c); [exact IH | contradiction].
Qed.

Lemma os_path_join_relative (a b : string) :
  a <> EmptyString -> endswith a "/" = false -> startswith b "/" = false ->
  os_path_join a b = a +:+ "/" +:+ b.
Proof.
  intros Ha Hslash Hb. unfold os_path_join. rewrite Hb, Hslash.
  apply String.eqb_neq in Ha. now rewrite Ha.
Qed.

(** X23: for a project root that is not empty and does not end in a slash,
    the corpus is read from [root/data/product_docs] and the vector store
    is kept in [root/vector_store/chroma_db]; the two are different
    directories and neither lies inside the other, so the walk of the
    corpus never enters the store. *)
Theorem configured_paths_are_separate (root : string) :
  root <> EmptyString ->
  endswith root "/" = false ->
  PRODUCT_DOCS_DIR root = root +:+ "/data/product_docs"
  /\ CHROMA_DB_PATH root = root +:+ "/vector_store/chroma_db"
  /\ PRODUCT_DOCS_DIR root <> CHROMA_DB_PATH root
  /\ startswith (CHROMA_DB_PATH root) (PRODUCT_DOCS_DIR root +:+ "/") = false
  /\ startswith (PRODUCT_DOCS_DIR root) (CHROMA_DB_PATH root +:+ "/") = false.
Proof.
  intros Hroot Hslash.
  assert (Hnonempty : forall tail, root +:+ tail <> EmptyString).
  { intros tail. destruct root; [done | discriminate]. }
  assert (Hdocs : PRODUCT_DOCS_DIR root = root +:+ "/data/product_docs").
  { unfold PRODUCT_DOCS_DIR, DATA_DIR.
    rewrite (os_path_join_relative root "data") by done.
    rewrite os_path_join_relative; [now rewrite !append_assoc| apply Hnonempty| |done].
    change (root +:+ "/" +:+ "data") with (root +:+ "/dat" +:+ "a").
    rewrite <- append_assoc.
    now rewrite endswith_app_same_length by reflexivity. }
  assert (Hdb : CHROMA_DB_PATH root = root +:+ "/vector_store/chroma_db").
  { unfold CHROMA_DB_PATH, VECTOR_STORE_DIR.
    rewrite (os_path_join_relative root "vector_store") by done.
    rewrite os_path_join_relative; [now rewrite !append_assoc| apply Hnonempty| |done].
    change (root +:+ "/" +:+ "vector_store")
      with (root +:+ "/vector_stor" +:+ "e").
    rewrite <- append_assoc.
    now rewrite endswith_app_same_length by reflexivity. }
  rewrite Hdocs, Hdb. split; [reflexivity|]. split; [reflexivity|]. split.
  - intros Heq. apply (inj (String.append root)) in Heq. discriminate Heq.
  - unfold startswith. rewrite !append_assoc, !prefix_app_cancel.
    split; reflexivity.
Qed.

Lemma configured_paths_are_separate_witness :
  PRODUCT_DOCS_DIR "/srv/bot" = "/srv/bot/data/product_docs"
  /\ CHROMA_DB_PATH "/srv/bot" = "/srv/bot/vector_store/chroma_db".
Proof.
  destruct (configured_paths_are_separate "/srv/bot") as (Hdocs & Hdb & _).
  - discriminate.
  - reflexivity.
  - split; [exact Hdocs | exact Hdb].
Defined.
